(** * The accordion controller of [src/js/accordion.js]

    A shallow embedding of the [Accordion] class: its configuration
    ([_getConfig]), its constructor, the two transition protocols
    ([_collapsePanel], [_expandPanel]) and the public [togglePanel], together
    with the part of the browser they rely on (element attributes, the class
    list, inline height, [setTimeout] and promise resumption).

    Asynchrony is modelled by explicit state passing: a state carries the
    pending timers and the suspended [togglePanel] frames; a call of
    [togglePanel] runs up to its first [await], and firing a timer runs the
    callback and then every frame whose awaited promises are all settled. *)

From Stdlib Require Import ZArith Bool Lia Ascii.
From stdpp Require Import base option list strings.

(** ** JavaScript values, as far as [_getConfig] needs them *)

Module JS.

Inductive value :=
| Undefined
| Null
| Bool (b : bool)
| Num (z : Z)
| NaN
| Str (s : string)
| Obj.

(** ToBoolean. *)
Definition truthy (v : value) : bool :=
  match v with
  | Undefined | Null | NaN => false
  | Bool b => b
  | Num z => negb (z =? 0)%Z
  | Str EmptyString => false
  | Str _ => true
  | Obj => true
  end.

(** [a || b] and [a && b] return one of their operands. *)
Definition or (a b : value) : value := if truthy a then a else b.
Definition and (a b : value) : value := if truthy a then b else a.

(** [!!a] *)
Definition to_bool (a : value) : value := Bool (truthy a).

(** A property that is either absent or a string (a [dataset] entry). *)
Definition of_attr (a : option string) : value :=
  match a with
  | Some s => Str s
  | None => Undefined
  end.

End JS.

(** ** Elements *)

(** The inline [style.height] values the code writes: [''], ['0'] and
    [h + 'px']. *)
Inductive Height :=
| HUnset
| HZero
| HPx (h : Z).

(** A trigger element: the two attributes the controller reads
    ([getAttribute] gives [null] for a missing attribute). *)
Record Trigger := mkTrigger {
  aria_expanded : option string;
  aria_disabled : option string
}.

(** A panel element.  [rect_height] is what [getBoundingClientRect().height]
    reports and [transition_ms] what [getTransitionDuration] returns for it
    (the delay handed to [setTimeout], in milliseconds); both come from the
    layout engine and the computed style and are read, never written. *)
Record Panel := mkPanel {
  expanded_class : bool;
  style_height : Height;
  rect_height : Z;
  transition_ms : nat
}.

(** A child of the root: whether it carries the group class, and the results
    of the two [querySelector] calls. *)
Record Child := mkChild {
  is_group : bool;
  q_trigger : option Trigger;
  q_panel : option Panel
}.

Record Dataset := mkDataset {
  data_allowToggle : option string;
  data_allowMultiple : option string
}.

Record Root := mkRoot {
  dataset : Dataset;
  children : list Child
}.

(** [getAttribute(name) === 'true'] *)
Definition attr_is_true (a : option string) : bool :=
  match a with
  | Some s => String.eqb s "true"
  | None => false
  end.

Definition set_aria_expanded (v : string) (t : Trigger) : Trigger :=
  {| aria_expanded := Some v; aria_disabled := aria_disabled t |}.

Definition set_class (b : bool) (p : Panel) : Panel :=
  {| expanded_class := b; style_height := style_height p;
     rect_height := rect_height p; transition_ms := transition_ms p |}.

Definition set_height (h : Height) (p : Panel) : Panel :=
  {| expanded_class := expanded_class p; style_height := h;
     rect_height := rect_height p; transition_ms := transition_ms p |}.

(** Array access with a JavaScript number: a negative index is [undefined]. *)
Definition at_index {A} (l : list A) (i : Z) : option A :=
  if (i <? 0)%Z then None else l !! Z.to_nat i.

Definition alter_at {A} (f : A → A) (i : Z) (l : list A) : list A :=
  if (i <? 0)%Z then l else alter f (Z.to_nat i) l.

(** ** Configuration *)

Record Options := mkOptions {
  opt_allowToggle : JS.value;
  opt_allowMultiple : JS.value
}.

Record Config := mkConfig {
  allowToggle : JS.value;
  allowMultiple : JS.value
}.

(** [_getConfig] *)
Definition getConfig (options : Options) (ds : Dataset) : Config :=
  let allowToggle :=
    JS.or (opt_allowToggle options)
          (JS.to_bool (JS.of_attr (data_allowToggle ds))) in
  let allowMultiple :=
    JS.and allowToggle
           (JS.or (opt_allowMultiple options)
                  (JS.to_bool (JS.of_attr (data_allowMultiple ds)))) in
  {| allowToggle := allowToggle; allowMultiple := allowMultiple |}.

(** ** Observable operations *)

Inductive EventName :=
| BEFORE_COLLAPSE
| COLLAPSE
| BEFORE_EXPAND
| EXPAND.

(** What a timer callback does when it runs: the closures passed to
    [setTimeout] by [_collapsePanel] and [_expandPanel], for panel [i]. *)
Inductive Callback :=
| CollapseDone (i : Z)
| ExpandDone (i : Z).

(** The operations of [_collapsePanel] and [_expandPanel] on the page, in the
    order they are performed.  [DispatchEvent e i] is the call
    [dispatchEvent(this._root, e, {index: i})] of the helper, which hands a
    [CustomEvent] to the root when [window.CustomEvent] is a function. *)
Inductive Op :=
| SetAriaExpanded (i : Z) (v : string)
| ClassAdd (i : Z)
| ClassRemove (i : Z)
| GetRectHeight (i : Z)
| SetStyleHeight (i : Z) (h : Height)
| ForceReflow (i : Z)
| GetTransitionDuration (i : Z)
| DispatchEvent (e : EventName) (index : Z)
| SetTimeout (cb : Callback) (ms : nat)
| Resolve (promise : nat).

(** ** Controller state and the event loop *)

Record Timer := mkTimer {
  due : nat;
  callback : Callback;
  promise : nat
}.

(** What [togglePanel] does after its [await]. *)
Inductive Resume :=
| AfterCollapse
| AfterExpand (i : Z)
| AfterSwap (i : Z).

(** A suspended [togglePanel] call: the promises it still waits for. *)
Record Frame := mkFrame {
  awaiting : list nat;
  resume : Resume
}.

(** The fields of the [Accordion] object ([_active] and [_isTransitioning]
    may be [undefined]), and the state of the page around it. *)
Record State := mkState {
  config : Config;
  triggers : list Trigger;
  panels : list Panel;
  active : option Z;
  isTransitioning : option bool;
  trace : list Op;
  timers : list Timer;
  frames : list Frame;
  next_promise : nat;
  clock : nat
}.

Definition opt_truthy (b : option bool) : bool :=
  match b with
  | Some true => true
  | _ => false
  end.

Definition transitioning (s : State) : bool := opt_truthy (isTransitioning s).

(** [this._active === i] *)
Definition active_is (s : State) (i : Z) : bool :=
  match active s with
  | Some a => (a =? i)%Z
  | None => false
  end.

(** The notifications dispatched so far, in order. *)
Definition events_of (l : list Op) : list (EventName * Z) :=
  omap (λ op, match op with
              | DispatchEvent e i => Some (e, i)
              | _ => None
              end) l.

Definition events (s : State) : list (EventName * Z) := events_of (trace s).

(** ** The constructor *)

(** The body of the [forEach] callback for the child at position [i] of
    [root.children]; the accumulator holds [_triggers], [_panels] and
    [_active]. *)
Definition scan_child (cfg : Config) (i : Z) (c : Child)
    (acc : list Trigger * list Panel * option Z)
    : list Trigger * list Panel * option Z :=
  let '(ts, ps, act) := acc in
  if negb (is_group c) then acc
  else match q_trigger c, q_panel c with
       | Some t, Some p =>
           let isExpanded := attr_is_true (aria_expanded t) in
           let '(isExpanded, act) :=
             if negb (JS.truthy (allowMultiple cfg)) && isExpanded then
               if negb (bool_decide (act = Some (-1)%Z))
               then (false, act)
               else (isExpanded, Some i)
             else (isExpanded, act) in
           (ts ++ [t], ps ++ [set_class isExpanded p], act)
       | _, _ => acc
       end.

Fixpoint scan (cfg : Config) (i : Z) (cs : list Child)
    (acc : list Trigger * list Panel * option Z)
    : list Trigger * list Panel * option Z :=
  match cs with
  | [] => acc
  | c :: cs => scan cfg (i + 1)%Z cs (scan_child cfg i c acc)
  end.

(** [new Accordion(root, options)] *)
Definition new_Accordion (root : Root) (options : Options) : State :=
  let cfg := getConfig options (dataset root) in
  let active0 := if JS.truthy (allowMultiple cfg) then None else Some (-1)%Z in
  let '(ts, ps, act) := scan cfg 0%Z (children root) ([], [], active0) in
  if (length ts =? 0)%nat then
    {| config := cfg; triggers := ts; panels := ps; active := act;
       isTransitioning := None; trace := []; timers := []; frames := [];
       next_promise := 0; clock := 0 |}
  else
    let '(ts, ps, act) :=
      if negb (JS.truthy (allowToggle cfg)) && bool_decide (act = Some (-1)%Z)
      then (alter (set_aria_expanded "true") 0%nat ts,
            alter (set_class true) 0%nat ps,
            Some 0%Z)
      else (ts, ps, act) in
    {| config := cfg; triggers := ts; panels := ps; active := act;
       isTransitioning := Some false; trace := []; timers := []; frames := [];
       next_promise := 0; clock := 0 |}.

(** ** State updates *)

Definition with_triggers (f : list Trigger → list Trigger) (s : State) : State :=
  {| config := config s; triggers := f (triggers s); panels := panels s;
     active := active s; isTransitioning := isTransitioning s;
     trace := trace s; timers := timers s; frames := frames s;
     next_promise := next_promise s; clock := clock s |}.

Definition with_panels (f : list Panel → list Panel) (s : State) : State :=
  {| config := config s; triggers := triggers s; panels := f (panels s);
     active := active s; isTransitioning := isTransitioning s;
     trace := trace s; timers := timers s; frames := frames s;
     next_promise := next_promise s; clock := clock s |}.

Definition with_active (a : option Z) (s : State) : State :=
  {| config := config s; triggers := triggers s; panels := panels s;
     active := a; isTransitioning := isTransitioning s;
     trace := trace s; timers := timers s; frames := frames s;
     next_promise := next_promise s; clock := clock s |}.

Definition with_isTransitioning (b : bool) (s : State) : State :=
  {| config := config s; triggers := triggers s; panels := panels s;
     active := active s; isTransitioning := Some b;
     trace := trace s; timers := timers s; frames := frames s;
     next_promise := next_promise s; clock := clock s |}.

Definition with_timers (f : list Timer → list Timer) (s : State) : State :=
  {| config := config s; triggers := triggers s; panels := panels s;
     active := active s; isTransitioning := isTransitioning s;
     trace := trace s; timers := f (timers s); frames := frames s;
     next_promise := next_promise s; clock := clock s |}.

Definition with_frames (fs : list Frame) (s : State) : State :=
  {| config := config s; triggers := triggers s; panels := panels s;
     active := active s; isTransitioning := isTransitioning s;
     trace := trace s; timers := timers s; frames := fs;
     next_promise := next_promise s; clock := clock s |}.

Definition with_clock (c : nat) (s : State) : State :=
  {| config := config s; triggers := triggers s; panels := panels s;
     active := active s; isTransitioning := isTransitioning s;
     trace := trace s; timers := timers s; frames := frames s;
     next_promise := next_promise s; clock := c |}.

Definition log (op : Op) (s : State) : State :=
  {| config := config s; triggers := triggers s; panels := panels s;
     active := active s; isTransitioning := isTransitioning s;
     trace := trace s ++ [op]; timers := timers s; frames := frames s;
     next_promise := next_promise s; clock := clock s |}.

(** [new Promise(...)]: a fresh promise identifier. *)
Definition new_promise (s : State) : nat * State :=
  (next_promise s,
   {| config := config s; triggers := triggers s; panels := panels s;
      active := active s; isTransitioning := isTransitioning s;
      trace := trace s; timers := timers s; frames := frames s;
      next_promise := S (next_promise s); clock := clock s |}).

(** ** Page operations, each recorded in the trace *)

Definition setAttribute_aria_expanded (i : Z) (v : string) (s : State) : State :=
  log (SetAriaExpanded i v)
      (with_triggers (alter_at (set_aria_expanded v) i) s).

Definition classList_add (i : Z) (s : State) : State :=
  log (ClassAdd i) (with_panels (alter_at (set_class true) i) s).

Definition classList_remove (i : Z) (s : State) : State :=
  log (ClassRemove i) (with_panels (alter_at (set_class false) i) s).

Definition style_height_set (i : Z) (h : Height) (s : State) : State :=
  log (SetStyleHeight i h) (with_panels (alter_at (set_height h) i) s).

Definition forceReflow (i : Z) (s : State) : State := log (ForceReflow i) s.

Definition dispatchEvent (e : EventName) (i : Z) (s : State) : State :=
  log (DispatchEvent e i) s.

(** [setTimeout(cb, ms)], with the promise the callback resolves. *)
Definition setTimeout (cb : Callback) (ms : nat) (p : nat) (s : State) : State :=
  log (SetTimeout cb ms)
      (with_timers
         (λ ts, ts ++ [{| due := clock s + ms; callback := cb; promise := p |}])
         s).

(** ** [_collapsePanel] and [_expandPanel]

    Both return the promise they create: [Some p] for a pending promise that
    the timer callback resolves, [None] when the executor throws (an element
    is [undefined]) and the promise is rejected. *)

Definition collapsePanel (i : Z) (s : State) : option nat * State :=
  let '(p, s) := new_promise s in
  match at_index (triggers s) i with
  | None => (None, s)
  | Some _ =>
      let s := setAttribute_aria_expanded i "false" s in
      match at_index (panels s) i with
      | None => (None, s)
      | Some panel =>
          let currentHeight := rect_height panel in
          let s := log (GetRectHeight i) s in
          let s := style_height_set i (HPx currentHeight) s in
          let s := forceReflow i s in
          let transitionDuration := transition_ms panel in
          let s := log (GetTransitionDuration i) s in
          let s := style_height_set i HZero s in
          let s := dispatchEvent BEFORE_COLLAPSE i s in
          let s := setTimeout (CollapseDone i) transitionDuration p s in
          (Some p, s)
      end
  end.

Definition expandPanel (i : Z) (s : State) : option nat * State :=
  let '(p, s) := new_promise s in
  match at_index (triggers s) i with
  | None => (None, s)
  | Some _ =>
      let s := setAttribute_aria_expanded i "true" s in
      match at_index (panels s) i with
      | None => (None, s)
      | Some panel =>
          let s := classList_add i s in
          let targetHeight := rect_height panel in
          let s := log (GetRectHeight i) s in
          let s := style_height_set i HZero s in
          let s := forceReflow i s in
          let transitionDuration := transition_ms panel in
          let s := log (GetTransitionDuration i) s in
          let s := style_height_set i (HPx targetHeight) s in
          let s := dispatchEvent BEFORE_EXPAND i s in
          let s := setTimeout (ExpandDone i) transitionDuration p s in
          (Some p, s)
      end
  end.

(** The closures passed to [setTimeout]. *)
Definition run_callback (t : Timer) (s : State) : State :=
  match callback t with
  | CollapseDone i =>
      let s := style_height_set i HUnset s in
      let s := classList_remove i s in
      let s := dispatchEvent COLLAPSE i s in
      log (Resolve (promise t)) s
  | ExpandDone i =>
      let s := style_height_set i HUnset s in
      let s := dispatchEvent EXPAND i s in
      log (Resolve (promise t)) s
  end.

(** ** [togglePanel] *)

(** The statements after the [await]. *)
Definition run_resume (r : Resume) (s : State) : State :=
  match r with
  | AfterCollapse =>
      let s := if negb (JS.truthy (allowMultiple (config s)))
               then with_active (Some (-1)%Z) s else s in
      with_isTransitioning false s
  | AfterExpand i =>
      let s := if negb (JS.truthy (allowMultiple (config s)))
               then with_active (Some i) s else s in
      with_isTransitioning false s
  | AfterSwap i =>
      let s := with_active (Some i) s in
      with_isTransitioning false s
  end.

(** Suspend the call on the given promises. *)
Definition await (ps : list nat) (r : Resume) (s : State) : State :=
  with_frames (frames s ++ [{| awaiting := ps; resume := r |}]) s.

(** [togglePanel(i)] up to its first suspension.  A rejected promise makes
    the [await] throw: the call ends there, and the statements after it
    (among them [this._isTransitioning = false]) never run. *)
Definition togglePanel (i : Z) (s : State) : State :=
  if (i <? 0)%Z || (Z.of_nat (length (panels s)) <=? i)%Z then s
  else if transitioning s then s
  else if negb (JS.truthy (allowToggle (config s))) && active_is s i then s
  else
    match at_index (triggers s) i with
    | None => s
    | Some trigger =>
        let isExpanded := attr_is_true (aria_expanded trigger) in
        let isDisabled := attr_is_true (aria_disabled trigger) in
        if isExpanded && isDisabled then s
        else
          let s := with_isTransitioning true s in
          if JS.truthy (allowToggle (config s)) then
            if isExpanded then
              match collapsePanel i s with
              | (Some p, s) => await [p] AfterCollapse s
              | (None, s) => s
              end
            else
              match expandPanel i s with
              | (Some p, s) => await [p] (AfterExpand i) s
              | (None, s) => s
              end
          else
            let '(c, s) := match active s with
                           | Some a => collapsePanel a s
                           | None => (None, s)
                           end in
            let '(e, s) := expandPanel i s in
            match c, e with
            | Some p, Some q => await [p; q] (AfterSwap i) s
            | _, _ => s
            end
    end.

(** ** Timers *)

Definition without_promise (p : nat) (f : Frame) : Frame :=
  {| awaiting := List.filter (λ q, negb (q =? p)%nat) (awaiting f);
     resume := resume f |}.

Definition is_ready (f : Frame) : bool :=
  match awaiting f with
  | [] => true
  | _ => false
  end.

(** Promise [p] is resolved: the frames that waited for nothing else
    continue, in the order they were suspended. *)
Definition settle (p : nat) (s : State) : State :=
  let fs := map (without_promise p) (frames s) in
  foldl (λ s f, run_resume (resume f) s)
        (with_frames (List.filter (λ f, negb (is_ready f)) fs) s)
        (List.filter is_ready fs).

(** The pending timer at position [k] fires. *)
Definition fire_at (k : nat) (s : State) : State :=
  match timers s !! k with
  | None => s
  | Some t =>
      let s := with_timers (delete k) s in
      let s := with_clock (Nat.max (clock s) (due t)) s in
      let s := run_callback t s in
      settle (promise t) s
  end.

(** The timer the browser runs next: the earliest one, the one set first
    among equals. *)
Fixpoint earliest_from (k : nat) (best : nat * nat) (ts : list Timer) : nat :=
  match ts with
  | [] => fst best
  | t :: ts =>
      earliest_from (S k)
        (if (due t <? snd best)%nat then (k, due t) else best) ts
  end.

Definition earliest (ts : list Timer) : option nat :=
  match ts with
  | [] => None
  | t :: ts => Some (earliest_from 1 (0, due t) ts)
  end.

Definition run_next (s : State) : State :=
  match earliest (timers s) with
  | Some k => fire_at k s
  | None => s
  end.

(** Run the timers until none is pending (each firing removes one timer and
    the callbacks set none). *)
Definition run_to_idle (s : State) : State :=
  Nat.iter (length (timers s)) run_next s.

(** ** Runs: calls of [togglePanel] interleaved with timer firings *)

(** A run lets any pending timer fire next, which covers the order the
    browser chooses ([run_next]) whatever the durations are. *)
Inductive Action :=
| Toggle (i : Z)
| Fire (k : nat).

Definition step (a : Action) (s : State) : State :=
  match a with
  | Toggle i => togglePanel i s
  | Fire k => fire_at k s
  end.

Definition run (acts : list Action) (s : State) : State :=
  foldl (λ s a, step a s) s acts.

(** ** Predicates used by the statements *)

(** The guards of [togglePanel]: the request gets past all four early
    returns. *)
Definition accepts (i : Z) (s : State) : bool :=
  negb ((i <? 0)%Z || (Z.of_nat (length (panels s)) <=? i)%Z)
  && negb (transitioning s)
  && negb (negb (JS.truthy (allowToggle (config s))) && active_is s i)
  && match at_index (triggers s) i with
     | Some t =>
         negb (attr_is_true (aria_expanded t) && attr_is_true (aria_disabled t))
     | None => false
     end.

(** The trigger at [k] says expanded and disabled. *)
Definition locked (k : Z) (s : State) : bool :=
  match at_index (triggers s) k with
  | Some t => attr_is_true (aria_expanded t) && attr_is_true (aria_disabled t)
  | None => false
  end.

(** A child that the constructor keeps as a (trigger, panel) pair. *)
Definition pair_of (c : Child) : option (Trigger * Panel) :=
  if is_group c then
    match q_trigger c, q_panel c with
    | Some t, Some p => Some (t, p)
    | _, _ => None
    end
  else None.

Definition flagged_expanded (c : Child) : bool :=
  match pair_of c with
  | Some (t, _) => attr_is_true (aria_expanded t)
  | None => false
  end.

(** The panels that carry the expanded class, by position. *)
Fixpoint expanded_from (k : Z) (ps : list Panel) : list Z :=
  match ps with
  | [] => []
  | p :: ps =>
      if expanded_class p then k :: expanded_from (k + 1)%Z ps
      else expanded_from (k + 1)%Z ps
  end.

Definition expanded_panels (s : State) : list Z := expanded_from 0%Z (panels s).

#[global] Instance Height_eq_dec : EqDecision Height.
Proof. solve_decision. Defined.

#[global] Instance EventName_eq_dec : EqDecision EventName.
Proof. solve_decision. Defined.

#[global] Instance Callback_eq_dec : EqDecision Callback.
Proof. solve_decision. Defined.

#[global] Instance Op_eq_dec : EqDecision Op.
Proof. solve_decision. Defined.

(** The operations [pat] occur in [l] in the order of [pat]. *)
Fixpoint in_order (pat l : list Op) : bool :=
  match pat, l with
  | [], _ => true
  | _ :: _, [] => false
  | a :: pat', b :: l' =>
      if decide (a = b) then in_order pat' l' else in_order pat l'
  end.

(** What happened in [s'] since [s]: the operations appended to the trace. *)
Definition since (s s' : State) : list Op := drop (length (trace s)) (trace s').

(** Exactly one call of [togglePanel] is suspended, under the lock, waiting
    for exactly the promises of the pending timers. *)
Definition suspended (s : State) : Prop :=
  ∃ r, frames s = [{| awaiting := map promise (timers s); resume := r |}]
       ∧ timers s ≠ []
       ∧ NoDup (map promise (timers s))
       ∧ transitioning s = true.

(** The state is consistent with the way [togglePanel] suspends: either no
    call is suspended, and then a timer can only be pending under the lock;
    or exactly one call is. *)
Definition lock_inv (s : State) : Prop :=
  (frames s = [] ∧ (timers s = [] ∨ transitioning s = true)) ∨ suspended s.

(** The operations of a successful [_collapsePanel], in order. *)
Definition collapse_ops (i : Z) (p : Panel) : list Op :=
  [SetAriaExpanded i "false"; GetRectHeight i;
   SetStyleHeight i (HPx (rect_height p)); ForceReflow i;
   GetTransitionDuration i; SetStyleHeight i HZero;
   DispatchEvent BEFORE_COLLAPSE i;
   SetTimeout (CollapseDone i) (transition_ms p)].

Definition expand_ops (i : Z) (p : Panel) : list Op :=
  [SetAriaExpanded i "true"; ClassAdd i; GetRectHeight i;
   SetStyleHeight i HZero; ForceReflow i; GetTransitionDuration i;
   SetStyleHeight i (HPx (rect_height p)); DispatchEvent BEFORE_EXPAND i;
   SetTimeout (ExpandDone i) (transition_ms p)].

Definition callback_ops (t : Timer) : list Op :=
  match callback t with
  | CollapseDone i =>
      [SetStyleHeight i HUnset; ClassRemove i; DispatchEvent COLLAPSE i;
       Resolve (promise t)]
  | ExpandDone i =>
      [SetStyleHeight i HUnset; DispatchEvent EXPAND i; Resolve (promise t)]
  end.

(** The panel a timer callback works on. *)
Definition target (cb : Callback) : Z :=
  match cb with
  | CollapseDone i => i
  | ExpandDone i => i
  end.

(** No pending timer works on panel [k]. *)
Definition no_timer_on (k : Z) (s : State) : Prop :=
  Forall (λ tm, target (callback tm) ≠ k) (timers s).

(** The order the specification gives for [collapse(i)] up to the start
    of the animation: flag, pinned height, layout flush, notification, and only
    then the height going to zero; and the same for [expand(i)]. *)
Definition claimed_collapse_order (i : Z) (h : Z) : list Op :=
  [SetAriaExpanded i "false"; SetStyleHeight i (HPx h); ForceReflow i;
   DispatchEvent BEFORE_COLLAPSE i; SetStyleHeight i HZero].

Definition claimed_expand_order (i : Z) (h : Z) : list Op :=
  [SetAriaExpanded i "true"; SetStyleHeight i HZero; ForceReflow i;
   DispatchEvent BEFORE_EXPAND i; SetStyleHeight i (HPx h)].

(** A request for index [k] right after construction takes the collapse
    path: the notifications are before-collapse and collapse for [k]. *)
Definition stale_flag_collapses (root : Root) (options : Options) (k : Z) : Prop :=
  events (run_to_idle (togglePanel k (new_Accordion root options)))
  = [(BEFORE_COLLAPSE, k); (COLLAPSE, k)].

#[global] Arguments collapsePanel : simpl never.
#[global] Arguments expandPanel : simpl never.
#[global] Arguments run_callback : simpl never.

(** ** Concrete pages used as examples *)

Definition trigger_of (expanded disabled : bool) : Trigger :=
  {| aria_expanded := Some (if expanded then "true" else "false");
     aria_disabled := if disabled then Some "true" else None |}.

Definition panel_of (ms : nat) : Panel :=
  {| expanded_class := false; style_height := HUnset;
     rect_height := 120; transition_ms := ms |}.

Definition group_of (expanded disabled : bool) (ms : nat) : Child :=
  {| is_group := true;
     q_trigger := Some (trigger_of expanded disabled);
     q_panel := Some (panel_of ms) |}.

(** A child without the group class, and a group without a panel. *)
Definition not_a_group : Child :=
  {| is_group := false; q_trigger := None; q_panel := None |}.

Definition group_without_panel : Child :=
  {| is_group := true; q_trigger := Some (trigger_of true false);
     q_panel := None |}.

Definition no_data : Dataset :=
  {| data_allowToggle := None; data_allowMultiple := None |}.

Definition options_of (toggle multiple : bool) : Options :=
  {| opt_allowToggle := JS.Bool toggle; opt_allowMultiple := JS.Bool multiple |}.

(** Three panels, the first one expanded. *)
Definition three_panels : Root :=
  {| dataset := no_data;
     children := [group_of true false 300; group_of false false 300;
                  group_of false false 200] |}.

(** Two panels, the first expanded with a disabled trigger. *)
Definition locked_first : Root :=
  {| dataset := no_data;
     children := [group_of true true 300; group_of false false 300] |}.

(** Two groups, both flagged expanded. *)
Definition two_flagged : Root :=
  {| dataset := no_data;
     children := [group_of true false 300; group_of true false 300] |}.

(** Two groups, both flagged expanded, the second with a disabled trigger. *)
Definition two_flagged_locked : Root :=
  {| dataset := no_data;
     children := [group_of true false 300; group_of true true 300] |}.

(** A child that is not a group, then a group flagged expanded. *)
Definition skipped_first : Root :=
  {| dataset := no_data;
     children := [not_a_group; group_of true false 300] |}.

(** ** The rest of the file: start-up, input handlers, duration parsing *)

(** [new Accordion(elem)]: the options default to [{}]. *)
Definition default_options : Options :=
  {| opt_allowToggle := JS.Undefined; opt_allowMultiple := JS.Undefined |}.

(** [initAll]: one controller for every element with the root class. *)
Definition initAll (roots : list Root) : list State :=
  map (λ elem, new_Accordion elem default_options) roots.

(** A [dataset] entry counts when it is present and not the empty string. *)
Definition data_set (a : option string) : bool := JS.truthy (JS.of_attr a).

(** [_handleTriggerClick]: [current] is what
    [this._triggers.indexOf(e.currentTarget)] reports, [-1] for an element
    that is not one of the triggers. *)
Definition handleTriggerClick (current : Z) (s : State) : State :=
  togglePanel current s.

(** The key codes of [Keys]. *)
Definition Keys_ENTER : Z := 13.
Definition Keys_SPACE : Z := 32.
Definition Keys_END : Z := 35.
Definition Keys_HOME : Z := 36.
Definition Keys_UP : Z := 38.
Definition Keys_DOWN : Z := 40.

(** The identifiers [_handleTriggerKeyDown] reads without declaring them:
    the value of a global binding of that name when the page has one with an
    integer value, [None] when the name is unbound. *)
Record Globals := mkGlobals {
  global_i : option Z;
  global_toggleCount : option Z
}.

Inductive Thrown :=
| ReferenceError
| TypeError.

(** What a key press did: the controller state afterwards, the trigger that
    received [focus()], whether [preventDefault()] was called, and the
    exception the handler ended with, if any. *)
Record KeyResult := mkKeyResult {
  key_state : State;
  focused : option Z;
  defaultPrevented : bool;
  thrown : option Thrown
}.

(** [a % n] on integers: [NaN] for [n = 0], else the remainder with the sign
    of [a]. *)
Definition js_rem (a n : Z) : option Z :=
  if (n =? 0)%Z then None else Some (Z.rem a n).

(** The end of the [else] branch for a key that chose an index ([None] is
    [NaN]): [this._triggers[nextIndex].focus()], then [preventDefault()]. *)
Definition focus_trigger (nextIndex : option Z) (s : State) : KeyResult :=
  match nextIndex with
  | None =>
      {| key_state := s; focused := None; defaultPrevented := false;
         thrown := Some TypeError |}
  | Some k =>
      match at_index (triggers s) k with
      | Some _ =>
          {| key_state := s; focused := Some k; defaultPrevented := true;
             thrown := None |}
      | None =>
          {| key_state := s; focused := None; defaultPrevented := false;
             thrown := Some TypeError |}
      end
  end.

(** [_handleTriggerKeyDown], for a key code and the position [current] of
    the event's target among the triggers. *)
Definition handleTriggerKeyDown (g : Globals) (keyCode current : Z)
    (s : State) : KeyResult :=
  if (keyCode =? Keys_ENTER)%Z || (keyCode =? Keys_SPACE)%Z then
    match global_i g with
    | None =>
        {| key_state := s; focused := None; defaultPrevented := false;
           thrown := Some ReferenceError |}
    | Some i =>
        {| key_state := togglePanel i s; focused := None;
           defaultPrevented := true; thrown := None |}
    end
  else
    let groupCount := Z.of_nat (length (triggers s)) in
    if (keyCode =? Keys_END)%Z then
      match global_toggleCount g with
      | None =>
          {| key_state := s; focused := None; defaultPrevented := false;
             thrown := Some ReferenceError |}
      | Some toggleCount => focus_trigger (Some (toggleCount - 1)%Z) s
      end
    else if (keyCode =? Keys_HOME)%Z then focus_trigger (Some 0%Z) s
    else if (keyCode =? Keys_DOWN)%Z then
      focus_trigger (js_rem (groupCount + current + 1) groupCount) s
    else if (keyCode =? Keys_UP)%Z then
      focus_trigger (js_rem (groupCount + current - 1) groupCount) s
    else
      {| key_state := s; focused := None; defaultPrevented := false;
         thrown := None |}.

(** The script's own bindings only: neither [i] nor [toggleCount] exists. *)
Definition no_globals : Globals :=
  {| global_i := None; global_toggleCount := None |}.

(** [s.split(',')] *)
Fixpoint split_comma (s : string) : list string :=
  match s with
  | EmptyString => [EmptyString]
  | String c r =>
      if Ascii.eqb c ","%char then EmptyString :: split_comma r
      else match split_comma r with
           | h :: t => String c h :: t
           | [] => [String c EmptyString]
           end
  end.

(** The string an array of strings converts to ([join(',')]). *)
Fixpoint array_toString (l : list string) : string :=
  match l with
  | [] => EmptyString
  | [x] => x
  | x :: rest => x +:+ String ","%char (array_toString rest)
  end.

(** [getTransitionDuration], over the numbers of the host: [parseFloat] on
    strings, [+], [* 1000], [isNaN] and the literal [0].  The two arguments
    are the computed [transitionDuration] and [transitionDelay], [None] when
    the style has no such property. *)
Definition getTransitionDuration {number : Type}
    (parseFloat : string → number) (plus : number → number → number)
    (times1000 : number → number) (isNaN : number → bool) (zero : number)
    (transitionDuration transitionDelay : option string) : number :=
  let duration := default EmptyString transitionDuration in
  let delay := default EmptyString transitionDelay in
  if negb (JS.truthy (JS.Str duration)) && negb (JS.truthy (JS.Str delay))
  then zero
  else
    let floatDuration := parseFloat (array_toString (split_comma duration)) in
    let floatDelay := parseFloat (array_toString (split_comma delay)) in
    let msDuration := times1000 (plus floatDuration floatDelay) in
    if isNaN msDuration then zero else msDuration.

(** ** Predicates for the further properties *)

(** The number of panels that carry the expanded class. *)
Definition open_count (ps : list Panel) : nat :=
  length (List.filter expanded_class ps).

(** The class the constructor gives a panel when no flag conflicts: the
    trigger's flag. *)
Definition mirrored (tp : Trigger * Panel) : Panel :=
  set_class (attr_is_true (aria_expanded tp.1)) tp.2.

(** Every panel with an inline height has a pending timer working on it. *)
Definition heights_owned (s : State) : Prop :=
  ∀ k p, at_index (panels s) k = Some p →
         style_height p ≠ HUnset →
         ∃ tm, tm ∈ timers s ∧ target (callback tm) = k.

(** Always-open mode at rest: the lock is free, nothing is pending, and
    panel [j], the active one, is the one panel whose trigger says expanded
    and whose panel carries the class. *)
Definition one_open (j : Z) (s : State) : Prop :=
  JS.truthy (allowToggle (config s)) = false
  ∧ transitioning s = false
  ∧ timers s = [] ∧ frames s = []
  ∧ length (triggers s) = length (panels s)
  ∧ active s = Some j
  ∧ (0 ≤ j < Z.of_nat (length (panels s)))%Z
  ∧ (∀ k t, at_index (triggers s) k = Some t →
            attr_is_true (aria_expanded t) = bool_decide (k = j))
  ∧ (∀ k p, at_index (panels s) k = Some p →
            expanded_class p = bool_decide (k = j)).

(** The lock is held and no call is suspended: nothing will release it. *)
Definition stuck (s : State) : Prop :=
  transitioning s = true ∧ frames s = [].

(** What no request may change: the disabled flags, one per trigger, and
    the number of panels. *)
Definition shape (s : State) : list (option string) * nat :=
  (aria_disabled <$> triggers s, length (panels s)).

(** * Proofs *)

(** ** Basic facts *)

Lemma at_index_Some {A} (l : list A) (i : Z) (x : A) :
  at_index l i = Some x → (0 ≤ i)%Z ∧ l !! Z.to_nat i = Some x.
Proof.
  unfold at_index. destruct (Z.ltb_spec i 0); [done|]. auto.
Qed.

Lemma at_index_alter_at_ne {A} (f : A → A) (l : list A) (i k : Z) :
  i ≠ k → at_index (alter_at f i l) k = at_index l k.
Proof.
  intros Hne. unfold at_index, alter_at.
  destruct (Z.ltb_spec k 0); [done|].
  destruct (Z.ltb_spec i 0); [done|].
  apply list_lookup_alter_ne. lia.
Qed.

Lemma at_index_alter_at_eq {A} (f : A → A) (l : list A) (i : Z) :
  at_index (alter_at f i l) i = f <$> at_index l i.
Proof.
  unfold at_index, alter_at. destruct (Z.ltb_spec i 0); [done|].
  apply list_lookup_alter_eq.
Qed.

Lemma length_alter_at {A} (f : A → A) (l : list A) (i : Z) :
  length (alter_at f i l) = length l.
Proof. unfold alter_at. case_match; [done|]. apply length_alter. Qed.

Lemma togglePanel_rejected (i : Z) (s : State) :
  accepts i s = false → togglePanel i s = s.
Proof.
  unfold accepts, togglePanel. intros H.
  destruct ((i <? 0)%Z || (Z.of_nat (length (panels s)) <=? i)%Z); [done|].
  destruct (transitioning s); [done|].
  destruct (negb (JS.truthy (allowToggle (config s))) && active_is s i); [done|].
  destruct (at_index (triggers s) i) as [t|]; [|done].
  simpl in H. apply negb_false_iff in H. by rewrite H.
Qed.

Lemma togglePanel_locked_out (i : Z) (s : State) :
  transitioning s = true → togglePanel i s = s.
Proof.
  intros H. apply togglePanel_rejected. unfold accepts. rewrite H.
  by rewrite andb_false_r.
Qed.

(** ** What one transition protocol does to the state *)

(** Name the ten fields of a state. *)
Ltac destruct_state s :=
  let cfg := fresh "cfg" in
  let ts := fresh "ts" in
  let ps := fresh "ps" in
  let act := fresh "act" in
  let tr := fresh "tr" in
  let trc := fresh "trc" in
  let tms := fresh "tms" in
  let frs := fresh "frs" in
  let np := fresh "np" in
  let clk := fresh "clk" in
  destruct s as [cfg ts ps act tr trc tms frs np clk].

(** Unfold the state operations by value, so that every intermediate state
    is reduced to a record once before it is used. *)
Ltac unfold_protocol :=
  cbv beta iota zeta delta
    [collapsePanel expandPanel run_callback run_resume await new_promise
     setTimeout dispatchEvent forceReflow style_height_set classList_add
     classList_remove setAttribute_aria_expanded log with_timers with_panels
     with_triggers with_active with_isTransitioning with_frames with_clock
     config triggers panels active isTransitioning trace timers frames
     next_promise clock callback promise due fst snd].

(** The fields [_collapsePanel] never writes, and what it adds to the timers:
    one timer for the promise it returns, or nothing when it throws. *)
Lemma collapsePanel_frame (i : Z) (s : State) :
  let r := (collapsePanel i s).1 in
  let s' := (collapsePanel i s).2 in
  config s' = config s ∧ active s' = active s
  ∧ isTransitioning s' = isTransitioning s ∧ frames s' = frames s
  ∧ clock s' = clock s ∧ next_promise s' = S (next_promise s)
  ∧ length (triggers s') = length (triggers s)
  ∧ length (panels s') = length (panels s)
  ∧ match r with
    | Some p =>
        p = next_promise s
        ∧ ∃ ms, timers s' = timers s ++
                  [{| due := clock s + ms; callback := CollapseDone i;
                      promise := p |}]
    | None => timers s' = timers s
    end.
Proof.
  destruct_state s. unfold_protocol.
  destruct (at_index _ i); [|done].
  destruct (at_index _ i); rewrite ?length_alter_at; eauto 12.
Qed.

Lemma expandPanel_frame (i : Z) (s : State) :
  let r := (expandPanel i s).1 in
  let s' := (expandPanel i s).2 in
  config s' = config s ∧ active s' = active s
  ∧ isTransitioning s' = isTransitioning s ∧ frames s' = frames s
  ∧ clock s' = clock s ∧ next_promise s' = S (next_promise s)
  ∧ length (triggers s') = length (triggers s)
  ∧ length (panels s') = length (panels s)
  ∧ match r with
    | Some p =>
        p = next_promise s
        ∧ ∃ ms, timers s' = timers s ++
                  [{| due := clock s + ms; callback := ExpandDone i;
                      promise := p |}]
    | None => timers s' = timers s
    end.
Proof.
  destruct_state s. unfold_protocol.
  destruct (at_index _ i); [|done].
  destruct (at_index _ i); rewrite ?length_alter_at; eauto 12.
Qed.

(** The two protocols touch the elements at their own index only. *)
Lemma collapsePanel_other (i k : Z) (s : State) :
  i ≠ k →
  at_index (triggers (collapsePanel i s).2) k = at_index (triggers s) k
  ∧ at_index (panels (collapsePanel i s).2) k = at_index (panels s) k.
Proof.
  intros Hne. destruct_state s. unfold_protocol.
  destruct (at_index _ i); [|done].
  destruct (at_index _ i); rewrite ?at_index_alter_at_ne by done; done.
Qed.

Lemma expandPanel_other (i k : Z) (s : State) :
  i ≠ k →
  at_index (triggers (expandPanel i s).2) k = at_index (triggers s) k
  ∧ at_index (panels (expandPanel i s).2) k = at_index (panels s) k.
Proof.
  intros Hne. destruct_state s. unfold_protocol.
  destruct (at_index _ i); [|done].
  destruct (at_index _ i); rewrite ?at_index_alter_at_ne by done; done.
Qed.

Lemma collapsePanel_ok (i : Z) (s : State) (t : Trigger) (p : Panel) :
  at_index (triggers s) i = Some t →
  at_index (panels s) i = Some p →
  (collapsePanel i s).1 = Some (next_promise s)
  ∧ trace (collapsePanel i s).2 = trace s ++ collapse_ops i p
  ∧ timers (collapsePanel i s).2 =
      timers s ++ [{| due := clock s + transition_ms p;
                      callback := CollapseDone i;
                      promise := next_promise s |}]
  ∧ triggers (collapsePanel i s).2 =
      alter_at (set_aria_expanded "false") i (triggers s)
  ∧ panels (collapsePanel i s).2 =
      alter_at (set_height HZero) i
        (alter_at (set_height (HPx (rect_height p))) i (panels s)).
Proof.
  destruct_state s. unfold_protocol. intros -> ->.
  rewrite <- !app_assoc. done.
Qed.

Lemma expandPanel_ok (i : Z) (s : State) (t : Trigger) (p : Panel) :
  at_index (triggers s) i = Some t →
  at_index (panels s) i = Some p →
  (expandPanel i s).1 = Some (next_promise s)
  ∧ trace (expandPanel i s).2 = trace s ++ expand_ops i p
  ∧ timers (expandPanel i s).2 =
      timers s ++ [{| due := clock s + transition_ms p;
                      callback := ExpandDone i;
                      promise := next_promise s |}]
  ∧ triggers (expandPanel i s).2 =
      alter_at (set_aria_expanded "true") i (triggers s)
  ∧ panels (expandPanel i s).2 =
      alter_at (set_height (HPx (rect_height p))) i
        (alter_at (set_height HZero) i
           (alter_at (set_class true) i (panels s))).
Proof.
  destruct_state s. unfold_protocol. intros -> ->.
  rewrite <- !app_assoc. done.
Qed.

Lemma run_callback_trace (t : Timer) (s : State) :
  trace (run_callback t s) = trace s ++ callback_ops t.
Proof.
  destruct_state s. destruct t as [d [i|i] p]; unfold callback_ops;
    unfold_protocol;
    rewrite <- !app_assoc; done.
Qed.

(** ** The transition lock *)

Lemma accepts_true (i : Z) (s : State) :
  accepts i s = true →
  ((i <? 0)%Z || (Z.of_nat (length (panels s)) <=? i)%Z) = false
  ∧ transitioning s = false
  ∧ (negb (JS.truthy (allowToggle (config s))) && active_is s i) = false
  ∧ ∃ t, at_index (triggers s) i = Some t
         ∧ (attr_is_true (aria_expanded t) && attr_is_true (aria_disabled t))
           = false.
Proof.
  unfold accepts. intros H.
  apply andb_true_iff in H as [H H4].
  apply andb_true_iff in H as [H H3].
  apply andb_true_iff in H as [H1 H2].
  apply negb_true_iff in H1, H2, H3.
  destruct (at_index (triggers s) i) as [t|]; [|done].
  apply negb_true_iff in H4. eauto 6.
Qed.

Lemma filter_promise_delete (ts : list Timer) (k : nat) (t : Timer) :
  NoDup (map promise ts) →
  ts !! k = Some t →
  List.filter (λ q, negb (q =? promise t)%nat) (map promise ts)
  = map promise (delete k ts).
Proof.
  revert k. induction ts as [|u ts IH]; intros k Hnd Hk; [done|].
  cbn in Hnd. apply NoDup_cons in Hnd as [Hnotin Hnd].
  destruct k as [|k].
  - injection Hk as ->. cbn. rewrite Nat.eqb_refl. cbn.
    clear IH Hnd. induction ts as [|v ts IH]; [done|].
    cbn. cbn in Hnotin. apply not_elem_of_cons in Hnotin as [Hne Hnotin].
    destruct (Nat.eqb_spec (promise v) (promise t)) as [E|E]; [congruence|].
    cbn. f_equal. by apply IH.
  - cbn. destruct (Nat.eqb_spec (promise u) (promise t)) as [E|E].
    + exfalso. apply Hnotin. rewrite E.
      apply list_elem_of_lookup. exists k.
      change (map promise ts) with (promise <$> ts).
      change (ts !! k = Some t) in Hk.
      by rewrite list_lookup_fmap, Hk.
    + cbn. f_equal. by apply (IH k).
Qed.

Lemma run_resume_fields (r : Resume) (s : State) :
  config (run_resume r s) = config s
  ∧ triggers (run_resume r s) = triggers s
  ∧ panels (run_resume r s) = panels s
  ∧ isTransitioning (run_resume r s) = Some false
  ∧ trace (run_resume r s) = trace s
  ∧ timers (run_resume r s) = timers s
  ∧ frames (run_resume r s) = frames s.
Proof.
  destruct_state s. destruct r; unfold_protocol;
    by destruct (JS.truthy (allowMultiple cfg)).
Qed.

Lemma run_callback_fields (t : Timer) (s : State) :
  config (run_callback t s) = config s
  ∧ triggers (run_callback t s) = triggers s
  ∧ active (run_callback t s) = active s
  ∧ isTransitioning (run_callback t s) = isTransitioning s
  ∧ timers (run_callback t s) = timers s
  ∧ frames (run_callback t s) = frames s
  ∧ length (panels (run_callback t s)) = length (panels s).
Proof.
  destruct_state s. destruct t as [d [i|i] p]; unfold_protocol;
    rewrite ?length_alter_at; done.
Qed.

Lemma togglePanel_lock_inv (i : Z) (s : State) :
  lock_inv s → lock_inv (togglePanel i s).
Proof.
  intros Hinv. destruct (accepts i s) eqn:Hacc;
    [|by rewrite togglePanel_rejected].
  apply accepts_true in Hacc as (H1 & H2 & H3 & t & Ht & H4).
  assert (frames s = [] ∧ timers s = []) as [Hf Htm].
  { destruct Hinv as [[? [?|?]]|(r & _ & _ & _ & ?)]; [done|congruence..]. }
  unfold togglePanel. rewrite H1, H2, H3, Ht, H4. cbn.
  remember (with_isTransitioning true s) as s1 eqn:Es1.
  assert (timers s1 = [] ∧ frames s1 = [] ∧ isTransitioning s1 = Some true)
    as (Htm1 & Hf1 & Hl1) by (by subst s1).
  clear Es1.
  destruct (JS.truthy (allowToggle (config s))).
  - destruct (attr_is_true (aria_expanded t)).
    + pose proof (collapsePanel_frame i s1) as Hc. cbn in Hc.
      destruct (collapsePanel i s1) as [[p|] s2]; cbn in Hc;
        destruct Hc as (_ & _ & Hl & Hfr & _ & _ & _ & _ & Hc).
      * destruct Hc as (-> & ms & Hc). right. eexists. cbn.
        rewrite Hc, Hfr, Hf1, Htm1. cbn. split_and!; [done|done| |].
        { apply NoDup_singleton. }
        { unfold transitioning. cbn. by rewrite Hl, Hl1. }
      * left. cbn. rewrite Hfr, Hf1. split; [done|]. right.
        unfold transitioning. by rewrite Hl, Hl1.
    + pose proof (expandPanel_frame i s1) as Hc. cbn in Hc.
      destruct (expandPanel i s1) as [[p|] s2]; cbn in Hc;
        destruct Hc as (_ & _ & Hl & Hfr & _ & _ & _ & _ & Hc).
      * destruct Hc as (-> & ms & Hc). right. eexists. cbn.
        rewrite Hc, Hfr, Hf1, Htm1. cbn. split_and!; [done|done| |].
        { apply NoDup_singleton. }
        { unfold transitioning. cbn. by rewrite Hl, Hl1. }
      * left. cbn. rewrite Hfr, Hf1. split; [done|]. right.
        unfold transitioning. by rewrite Hl, Hl1.
  - assert (∃ c s2, (match active s with
                     | Some a => collapsePanel a s1
                     | None => (None, s1)
                     end) = (c, s2)
                    ∧ isTransitioning s2 = Some true ∧ frames s2 = []
                    ∧ match c with
                      | Some p => p = next_promise s1
                                  ∧ next_promise s2 = S p
                                  ∧ ∃ tm, timers s2 = [tm] ∧ promise tm = p
                      | None => timers s2 = []
                      end) as (c & s2 & -> & Hl2 & Hf2 & Hc2).
    { destruct (active s) as [a|]; [|by exists None, s1].
      pose proof (collapsePanel_frame a s1) as Hc. cbn in Hc.
      destruct (collapsePanel a s1) as [c s2]. exists c, s2. cbn in Hc.
      destruct Hc as (_ & _ & Hl & Hfr & _ & Hn & _ & _ & Hc).
      split_and!; [done|congruence|congruence|].
      destruct c as [p|]; [|congruence].
      destruct Hc as (-> & ms & Hc). rewrite Hc, Htm1. cbn.
      split_and!; [done|done|]. by eexists. }
    pose proof (expandPanel_frame i s2) as He. cbn in He.
    destruct (expandPanel i s2) as [e s3]; cbn in He.
    destruct He as (_ & _ & Hl3 & Hf3 & _ & _ & _ & _ & He).
    assert (transitioning s3 = true) as Hlock
      by (unfold transitioning; by rewrite Hl3, Hl2).
    destruct c as [p|], e as [q|]; cbn.
    + destruct Hc2 as (-> & Hn & tm & Htm2 & Hp).
      destruct He as (-> & ms & He). right. eexists. cbn.
      rewrite He, Htm2, Hf3, Hf2. cbn. rewrite Hp, Hn.
      split_and!; [done|done| |done].
      apply NoDup_cons. split; [|apply NoDup_singleton].
      apply not_elem_of_cons. split; [lia|]. apply not_elem_of_nil.
    + left. split; [congruence|]. by right.
    + left. split; [congruence|]. by right.
    + left. split; [congruence|]. by right.
Qed.

(** Name the state after the timer callback, keeping what it preserves. *)
Ltac abstract_callback s1 Hl Htm Hfr :=
  match goal with
  | |- context [run_callback ?t ?x] =>
      pose proof (run_callback_fields t x) as (_ & _ & _ & Hl & Htm & Hfr & _);
      remember (run_callback t x) as s1 eqn:Es1; clear Es1;
      cbn in Hl, Htm, Hfr
  end.

Lemma settle_no_frames (p : nat) (s : State) :
  frames s = [] → settle p s = with_frames [] s.
Proof. unfold settle. intros ->. done. Qed.

Lemma fire_at_lock_inv (k : nat) (s : State) :
  lock_inv s → lock_inv (fire_at k s).
Proof.
  intros Hinv. unfold fire_at.
  destruct (timers s !! k) as [t|] eqn:Hk; [|done].
  abstract_callback s1 Hl Htm Hfr.
  destruct Hinv as [[Hf Hor]|(r & Hf & Hne & Hnd & Hlock)].
  - rewrite settle_no_frames by congruence. left. cbn. split; [done|].
    right. destruct Hor as [E|E]; [by rewrite E in Hk|].
    unfold transitioning. cbn. by rewrite Hl.
  - unfold settle. rewrite Hfr, Hf. cbn.
    unfold without_promise, is_ready. cbn [awaiting resume].
    rewrite (filter_promise_delete _ _ _ Hnd Hk).
    destruct (delete k (timers s)) as [|u us] eqn:Hdel; cbn.
    + left. destruct (run_resume_fields r (with_frames [] s1))
        as (_ & _ & _ & _ & _ & -> & ->). cbn. rewrite Htm. auto.
    + right. exists r. cbn. rewrite Htm. cbn. split_and!; [done|done| |].
      * change (NoDup (promise <$> (u :: us))).
        rewrite <- Hdel, list_fmap_delete.
        eapply sublist_NoDup; [exact Hnd|apply sublist_delete].
      * unfold transitioning. cbn. rewrite Hl. done.
Qed.

Lemma run_lock_inv (acts : list Action) (s : State) :
  lock_inv s → lock_inv (run acts s).
Proof.
  revert s. induction acts as [|a acts IH]; intros s Hinv; [done|].
  cbn. apply IH. destruct a; cbn;
    [by apply togglePanel_lock_inv | by apply fire_at_lock_inv].
Qed.

Lemma new_Accordion_idle (root : Root) (options : Options) :
  let s := new_Accordion root options in
  timers s = [] ∧ frames s = [] ∧ trace s = [] ∧ transitioning s = false
  ∧ config s = getConfig options (dataset root).
Proof.
  unfold new_Accordion.
  destruct (scan _ _ _ _) as [[ts ps] act].
  destruct (length ts =? 0)%nat; [done|].
  destruct (negb _ && _); done.
Qed.

Lemma new_Accordion_lock_inv (root : Root) (options : Options) :
  lock_inv (new_Accordion root options).
Proof.
  destruct (new_Accordion_idle root options) as (Ht & Hf & _).
  left. auto.
Qed.

Lemma lock_inv_pending (s : State) :
  lock_inv s → timers s ≠ [] → transitioning s = true.
Proof. intros [[_ [?|?]]|(r & _ & _ & _ & ?)] Hne; done. Qed.

Lemma togglePanel_accepted_locks (i : Z) (s : State) :
  accepts i s = true → transitioning (togglePanel i s) = true.
Proof.
  intros Hacc.
  apply accepts_true in Hacc as (H1 & H2 & H3 & t & Ht & H4).
  unfold togglePanel. rewrite H1, H2, H3, Ht, H4. cbn.
  remember (with_isTransitioning true s) as s1 eqn:Es1.
  assert (isTransitioning s1 = Some true) as Hl1 by (by subst s1).
  clear Es1.
  destruct (JS.truthy (allowToggle (config s))).
  - destruct (attr_is_true (aria_expanded t)).
    + pose proof (collapsePanel_frame i s1) as Hc. cbn in Hc.
      destruct (collapsePanel i s1) as [[p|] s2]; cbn in Hc;
        destruct Hc as (_ & _ & Hl & _); unfold transitioning; cbn;
        by rewrite Hl, Hl1.
    + pose proof (expandPanel_frame i s1) as Hc. cbn in Hc.
      destruct (expandPanel i s1) as [[p|] s2]; cbn in Hc;
        destruct Hc as (_ & _ & Hl & _); unfold transitioning; cbn;
        by rewrite Hl, Hl1.
  - assert (isTransitioning
              (match active s with
               | Some a => collapsePanel a s1
               | None => (None, s1)
               end).2 = Some true) as Hl2.
    { destruct (active s) as [a|]; [|done].
      pose proof (collapsePanel_frame a s1) as Hc. cbn in Hc.
      destruct Hc as (_ & _ & Hl & _). by rewrite Hl. }
    destruct (match active s with
              | Some a => collapsePanel a s1
              | None => (None, s1)
              end) as [c s2]. cbn in Hl2.
    pose proof (expandPanel_frame i s2) as He. cbn in He.
    destruct (expandPanel i s2) as [e s3]; cbn in He.
    destruct He as (_ & _ & Hl3 & _).
    destruct c, e; unfold transitioning; cbn; by rewrite Hl3, Hl2.
Qed.

(** Firing a timer of a suspended call either leaves it suspended on the
    remaining timers, or was the last one: the call resumes and releases the
    lock. *)
Lemma fire_at_suspended (k : nat) (t : Timer) (s : State) :
  suspended s →
  timers s !! k = Some t →
  length (timers (fire_at k s)) = length (timers s) - 1
  ∧ ((timers (fire_at k s) = [] ∧ frames (fire_at k s) = []
      ∧ isTransitioning (fire_at k s) = Some false)
     ∨ suspended (fire_at k s)).
Proof.
  intros Hs Hk.
  assert (lock_inv (fire_at k s)) as Hinv
    by (apply fire_at_lock_inv; by right).
  destruct Hs as (r & Hf & Hne & Hnd & Hlock).
  revert Hinv. unfold fire_at. rewrite Hk.
  abstract_callback s1 Hl Htm Hfr.
  unfold settle. rewrite Hfr, Hf. cbn.
  unfold without_promise, is_ready. cbn [awaiting resume].
  rewrite (filter_promise_delete _ _ _ Hnd Hk).
  assert (length (delete k (timers s)) = length (timers s) - 1) as Hlen.
  { apply length_delete. by eexists. }
  destruct (delete k (timers s)) as [|u us] eqn:Hdel; cbn.
  - intros _.
    destruct (run_resume_fields r (with_frames [] s1))
      as (_ & _ & _ & -> & _ & -> & ->). cbn. rewrite Htm. auto.
  - intros [[Hbad _]|Hsus]; [done|]. cbn. rewrite Htm. auto.
Qed.

Lemma earliest_from_bound (ts : list Timer) (k : nat) (best : nat * nat) :
  best.1 < k → earliest_from k best ts < k + length ts.
Proof.
  revert k best. induction ts as [|t ts IH]; intros k best Hb;
    cbn [earliest_from length]; [lia|].
  specialize (IH (S k) (if (due t <? best.2)%nat then (k, due t) else best)).
  destruct (due t <? best.2)%nat; cbn [fst] in IH; lia.
Qed.

Lemma earliest_Some (ts : list Timer) :
  ts ≠ [] → ∃ k t, earliest ts = Some k ∧ ts !! k = Some t.
Proof.
  destruct ts as [|t ts]; [done|]. intros _. cbn.
  pose proof (earliest_from_bound ts 1 (0, due t)) as Hb. cbn in Hb.
  destruct (lookup_lt_is_Some_2 (t :: ts) (earliest_from 1 (0, due t) ts))
    as [u Hu]; [cbn; lia|].
  eauto.
Qed.

Lemma run_to_idle_releases (s : State) :
  suspended s →
  timers (run_to_idle s) = [] ∧ frames (run_to_idle s) = []
  ∧ isTransitioning (run_to_idle s) = Some false.
Proof.
  unfold run_to_idle. remember (length (timers s)) as n eqn:Hn.
  revert s Hn. induction n as [|n IH]; intros s Hn Hs.
  - destruct Hs as (_ & _ & Hne & _). by destruct (timers s).
  - rewrite Nat.iter_succ_r.
    assert (timers s ≠ []) as Hne by (by destruct Hs as (_ & _ & ? & _)).
    destruct (earliest_Some _ Hne) as (k & t & Hk & Ht).
    assert (run_next s = fire_at k s) as ->
      by (unfold run_next; by rewrite Hk).
    destruct (fire_at_suspended k t s Hs Ht) as [Hlen [Hdone|Hsus]].
    + destruct Hdone as (Htm & ? & ?). rewrite Htm in Hlen. cbn in Hlen.
      assert (n = 0) as -> by lia. done.
    + apply IH; [lia|done].
Qed.

(** ** C10: the configuration *)

Lemma togglePanel_config (i : Z) (s : State) :
  config (togglePanel i s) = config s.
Proof.
  unfold togglePanel.
  repeat (case_match; try done); cbn;
    repeat match goal with
    | H : collapsePanel ?a ?x = (_, ?y) |- _ =>
        let F := fresh in
        pose proof (collapsePanel_frame a x) as F; cbn in F;
        rewrite H in F; cbn in F; destruct F as (F & _); clear H
    | H : expandPanel ?a ?x = (_, ?y) |- _ =>
        let F := fresh in
        pose proof (expandPanel_frame a x) as F; cbn in F;
        rewrite H in F; cbn in F; destruct F as (F & _); clear H
    end; simplify_eq/=; congruence.
Qed.

Lemma settle_config (p : nat) (s : State) : config (settle p s) = config s.
Proof.
  unfold settle.
  generalize (List.filter is_ready (map (without_promise p) (frames s))).
  generalize (List.filter (λ f, negb (is_ready f))
                (map (without_promise p) (frames s))).
  intros fs rs.
  change (config s) with (config (with_frames fs s)).
  generalize (with_frames fs s). clear.
  induction rs as [|f rs IH]; intros s; [done|].
  cbn. rewrite IH. by destruct (run_resume_fields (resume f) s) as (-> & _).
Qed.

Lemma fire_at_config (k : nat) (s : State) : config (fire_at k s) = config s.
Proof.
  unfold fire_at. destruct (timers s !! k) as [t|]; [|done].
  rewrite settle_config.
  by destruct (run_callback_fields t
    (with_clock (Nat.max (clock (with_timers (delete k) s)) (due t))
       (with_timers (delete k) s))) as (-> & _).
Qed.

Lemma run_cons (a : Action) (acts : list Action) (s : State) :
  run (a :: acts) s = run acts (step a s).
Proof. done. Qed.

Lemma run_config (acts : list Action) (s : State) :
  config (run acts s) = config s.
Proof.
  revert s. induction acts as [|a acts IH]; intros s; [done|].
  rewrite run_cons, IH. destruct a; [apply togglePanel_config|apply fire_at_config].
Qed.

(** C10. For every options object and every root dataset, the configuration
    produced at construction satisfies "allowMultiple implies allowToggle":
    when [allowToggle] is falsy, [allowMultiple] is [false] whatever the
    options and the dataset ask for; and no call of [togglePanel] and no timer
    changes the configuration afterwards. *)
Theorem C10_allowMultiple_implies_allowToggle (root : Root) (options : Options) :
  let cfg := getConfig options (dataset root) in
  implb (JS.truthy (allowMultiple cfg)) (JS.truthy (allowToggle cfg)) = true
  ∧ (if JS.truthy (allowToggle cfg) then True
     else allowToggle cfg = JS.Bool false ∧ allowMultiple cfg = JS.Bool false)
  ∧ ∀ acts, config (run acts (new_Accordion root options)) = cfg.
Proof.
  cbn. split_and!.
  - unfold getConfig, JS.and, JS.or, JS.to_bool. cbn.
    destruct (JS.truthy (opt_allowToggle options)) eqn:E1; cbn.
    + rewrite E1. apply implb_true_r.
    + destruct (JS.truthy (JS.of_attr (data_allowToggle (dataset root))));
        cbn; [apply implb_true_r|done].
  - unfold getConfig, JS.and, JS.or, JS.to_bool. cbn.
    destruct (JS.truthy (opt_allowToggle options)) eqn:E1; cbn.
    + by rewrite E1.
    + by destruct (JS.truthy (JS.of_attr (data_allowToggle (dataset root)))).
  - intros acts. rewrite run_config.
    by destruct (new_Accordion_idle root options) as (_ & _ & _ & _ & ->).
Qed.

(** ** C8: rejected requests *)

Lemma scan_no_pairs (cfg : Config) (i : Z) (cs : list Child)
    (acc : list Trigger * list Panel * option Z) :
  omap pair_of cs = [] → scan cfg i cs acc = acc.
Proof.
  revert i acc. induction cs as [|c cs IH]; intros i acc H; [done|].
  cbn in H. destruct (pair_of c) as [tp|] eqn:Hc; [done|].
  cbn. rewrite IH by done.
  unfold scan_child, pair_of in *. destruct acc as [[ts ps] act].
  destruct (is_group c); [|done]. cbn.
  by destruct (q_trigger c), (q_panel c).
Qed.

Lemma fire_at_no_timers (k : nat) (s : State) :
  timers s = [] → fire_at k s = s.
Proof. unfold fire_at. by intros ->. Qed.

(** C8. Every rejected request is a silent no-op: with [i] outside
    [0, panelCount), or with [allowToggle] off and [i] the active index,
    [togglePanel i] returns the state as it was (no field of the controller,
    no element and no notification changes).  A root without a valid pair
    gives a controller on which every run of requests and timers leaves the
    state untouched. *)
Theorem C8_rejected_toggle_is_silent :
  (∀ (s : State) (i : Z),
     (i < 0 ∨ Z.of_nat (length (panels s)) ≤ i
      ∨ (JS.truthy (allowToggle (config s)) = false ∧ active s = Some i))%Z →
     togglePanel i s = s ∧ events (togglePanel i s) = events s)
  ∧ (∀ (root : Root) (options : Options),
       omap pair_of (children root) = [] →
       panels (new_Accordion root options) = []
       ∧ ∀ acts, run acts (new_Accordion root options)
                 = new_Accordion root options).
Proof.
  split.
  - intros s i H.
    assert (togglePanel i s = s) as E; [|by rewrite E].
    apply togglePanel_rejected. unfold accepts.
    destruct H as [H|[H|[H1 H2]]].
    + apply Z.ltb_lt in H. by rewrite H.
    + apply Z.leb_le in H. rewrite H. by rewrite orb_true_r.
    + unfold active_is. rewrite H1, H2, Z.eqb_refl. cbn.
      by rewrite andb_false_r.
  - intros root options Hnone.
    assert (panels (new_Accordion root options) = []
            ∧ timers (new_Accordion root options) = []) as [Hp Ht].
    { unfold new_Accordion. by rewrite scan_no_pairs. }
    split; [done|].
    generalize dependent (new_Accordion root options). intros s Hp Ht acts.
    induction acts as [|a acts IH]; [done|].
    rewrite run_cons. destruct a as [i|k]; cbn [step].
    + rewrite togglePanel_rejected; [done|].
      unfold accepts. rewrite Hp.
      assert ((i <? 0)%Z || (Z.of_nat (length (@nil Panel)) <=? i)%Z = true)
        as ->; [|done].
      change (Z.of_nat (length (@nil Panel))) with 0%Z.
      destruct (Z.ltb_spec i 0); [done|]. apply Z.leb_le. lia.
    + by rewrite fire_at_no_timers.
Qed.

Lemma C8_rejected_toggle_is_silent_witness :
  togglePanel 7 (new_Accordion three_panels (options_of false false))
  = new_Accordion three_panels (options_of false false)
  ∧ togglePanel 0 (new_Accordion three_panels (options_of false false))
    = new_Accordion three_panels (options_of false false)
  ∧ run [Toggle 0; Fire 0; Toggle (-1)]
        (new_Accordion {| dataset := no_data;
                          children := [not_a_group; group_without_panel] |}
                       (options_of true false))
    = new_Accordion {| dataset := no_data;
                       children := [not_a_group; group_without_panel] |}
                    (options_of true false).
Proof.
  split_and!.
  - refine (proj1 (proj1 C8_rejected_toggle_is_silent _ 7%Z _)).
    right. left. vm_compute. discriminate.
  - refine (proj1 (proj1 C8_rejected_toggle_is_silent _ 0%Z _)).
    right. right. split; reflexivity.
  - refine (proj2 (proj2 C8_rejected_toggle_is_silent _ _ _) _).
    reflexivity.
Defined.

(** ** C3: the transition lock *)

(** C3. [isTransitioning] is true from the moment a request is accepted
    until every animation of that request has completed, and a call of
    [togglePanel] made meanwhile changes nothing: right after the accepted
    call the lock is held and any second call returns the state as it is (so
    only the first request's state changes and events exist); along any run
    that follows, as long as a timer is pending the lock is held and calls
    are ignored; and once the suspended call's timers have all fired the lock
    is released. *)
Theorem C3_transition_lock (s : State) (a : Z) :
  lock_inv s →
  accepts a s = true →
  transitioning (togglePanel a s) = true
  ∧ (∀ b, togglePanel b (togglePanel a s) = togglePanel a s)
  ∧ (∀ acts,
       timers (run acts (togglePanel a s)) ≠ [] →
       transitioning (run acts (togglePanel a s)) = true
       ∧ ∀ b, togglePanel b (run acts (togglePanel a s))
              = run acts (togglePanel a s))
  ∧ (frames (togglePanel a s) ≠ [] →
     timers (run_to_idle (togglePanel a s)) = []
     ∧ isTransitioning (run_to_idle (togglePanel a s)) = Some false).
Proof.
  intros Hinv Hacc.
  pose proof (togglePanel_accepted_locks a s Hacc) as Hlock.
  pose proof (togglePanel_lock_inv a s Hinv) as Hinv1.
  split_and!.
  - done.
  - intros b. by apply togglePanel_locked_out.
  - intros acts Hpending.
    assert (transitioning (run acts (togglePanel a s)) = true) as Hl.
    { apply lock_inv_pending; [|done]. by apply run_lock_inv. }
    split; [done|]. intros b. by apply togglePanel_locked_out.
  - intros Hfr. destruct Hinv1 as [[Hnil _]|Hsus]; [done|].
    destruct (run_to_idle_releases _ Hsus) as (? & _ & ?). done.
Qed.

Lemma C3_transition_lock_witness :
  let s := new_Accordion three_panels (options_of true false) in
  transitioning (togglePanel 0 s) = true
  ∧ (∀ b, togglePanel b (togglePanel 0 s) = togglePanel 0 s)
  ∧ (∀ acts,
       timers (run acts (togglePanel 0 s)) ≠ [] →
       transitioning (run acts (togglePanel 0 s)) = true
       ∧ ∀ b, togglePanel b (run acts (togglePanel 0 s))
              = run acts (togglePanel 0 s))
  ∧ (frames (togglePanel 0 s) ≠ [] →
     timers (run_to_idle (togglePanel 0 s)) = []
     ∧ isTransitioning (run_to_idle (togglePanel 0 s)) = Some false).
Proof.
  apply (C3_transition_lock
           (new_Accordion three_panels (options_of true false)) 0).
  - left. split; [reflexivity|left; reflexivity].
  - reflexivity.
Defined.

(** ** C4: the order of the steps of one transition *)

(** On the three-panel page the notification comes after the write of the
    target height, for both protocols: the order of C4 as stated does not
    occur in the trace. *)
Lemma C4_claimed_order_fails :
  let s := new_Accordion three_panels (options_of true false) in
  in_order (claimed_collapse_order 0 120) (trace (collapsePanel 0 s).2) = false
  ∧ in_order (claimed_expand_order 1 120) (trace (expandPanel 1 s).2) = false
  ∧ in_order [SetStyleHeight 0 HZero; DispatchEvent BEFORE_COLLAPSE 0]
             (trace (collapsePanel 0 s).2) = true
  ∧ in_order [SetStyleHeight 1 (HPx 120); DispatchEvent BEFORE_EXPAND 1]
             (trace (expandPanel 1 s).2) = true.
Proof. vm_compute. done. Qed.

(** C4 (amended). Each [collapse(i)] performs, in this exact order: set the
    trigger's flag to collapsed; read the current height, pin it and force a
    layout flush; read the duration; write the zero height (the animation's
    target); emit before-collapse; set the timer.  When the timer fires:
    clear the height override, remove the expanded class, emit collapse,
    resolve.  [expand(i)] likewise: flag and class, height read, zero height,
    flush, duration, target height, before-expand, timer; then clear the
    override, emit expand, resolve.  In both, the target height is written
    before the "before" notification is emitted. *)
Theorem C4_transition_order (s : State) (i : Z) (t : Trigger) (p : Panel) :
  at_index (triggers s) i = Some t →
  at_index (panels s) i = Some p →
  since s (collapsePanel i s).2 = collapse_ops i p
  ∧ since s (expandPanel i s).2 = expand_ops i p
  ∧ (∃ tm, timers (collapsePanel i s).2 = timers s ++ [tm]
           ∧ callback tm = CollapseDone i
           ∧ due tm = clock s + transition_ms p
           ∧ (collapsePanel i s).1 = Some (promise tm)
           ∧ ∀ s', since s' (run_callback tm s')
                   = [SetStyleHeight i HUnset; ClassRemove i;
                      DispatchEvent COLLAPSE i; Resolve (promise tm)])
  ∧ (∃ tm, timers (expandPanel i s).2 = timers s ++ [tm]
           ∧ callback tm = ExpandDone i
           ∧ due tm = clock s + transition_ms p
           ∧ (expandPanel i s).1 = Some (promise tm)
           ∧ ∀ s', since s' (run_callback tm s')
                   = [SetStyleHeight i HUnset; DispatchEvent EXPAND i;
                      Resolve (promise tm)]).
Proof.
  intros Ht Hp.
  destruct (collapsePanel_ok i s t p Ht Hp) as (Hr & Htr & Htm & _).
  destruct (expandPanel_ok i s t p Ht Hp) as (Hr' & Htr' & Htm' & _).
  unfold since. rewrite Htr, Htr', !drop_app_length. split_and!; [done|done| |].
  - eexists. split; [exact Htm|]. cbn. split_and!; [done|done|done|].
    intros s'. by rewrite run_callback_trace, drop_app_length.
  - eexists. split; [exact Htm'|]. cbn. split_and!; [done|done|done|].
    intros s'. by rewrite run_callback_trace, drop_app_length.
Qed.

Lemma C4_transition_order_witness :
  let s := new_Accordion three_panels (options_of true false) in
  since s (collapsePanel 0 s).2
  = [SetAriaExpanded 0 "false"; GetRectHeight 0; SetStyleHeight 0 (HPx 120);
     ForceReflow 0; GetTransitionDuration 0; SetStyleHeight 0 HZero;
     DispatchEvent BEFORE_COLLAPSE 0; SetTimeout (CollapseDone 0) 300].
Proof.
  exact (proj1 (C4_transition_order
                  (new_Accordion three_panels (options_of true false)) 0
                  (trigger_of true false) (set_class true (panel_of 300))
                  eq_refl eq_refl)).
Defined.
(** ** C7: the exclusive swap *)

Lemma togglePanel_swap (s : State) (i j : Z) (tj ti : Trigger) (pj pi : Panel) :
  JS.truthy (allowToggle (config s)) = false →
  active s = Some j →
  i ≠ j →
  transitioning s = false →
  at_index (triggers s) j = Some tj →
  at_index (panels s) j = Some pj →
  at_index (triggers s) i = Some ti →
  at_index (panels s) i = Some pi →
  (attr_is_true (aria_expanded ti) && attr_is_true (aria_disabled ti)) = false →
  togglePanel i s =
  {| config := config s;
     triggers := alter_at (set_aria_expanded "true") i
                   (alter_at (set_aria_expanded "false") j (triggers s));
     panels := alter_at (set_height (HPx (rect_height pi))) i
                 (alter_at (set_height HZero) i
                    (alter_at (set_class true) i
                       (alter_at (set_height HZero) j
                          (alter_at (set_height (HPx (rect_height pj))) j
                             (panels s)))));
     active := Some j;
     isTransitioning := Some true;
     trace := trace s ++ collapse_ops j pj ++ expand_ops i pi;
     timers := timers s ++
               [{| due := clock s + transition_ms pj;
                   callback := CollapseDone j;
                   promise := next_promise s |};
                {| due := clock s + transition_ms pi;
                   callback := ExpandDone i;
                   promise := S (next_promise s) |}];
     frames := frames s ++
               [{| awaiting := [next_promise s; S (next_promise s)];
                   resume := AfterSwap i |}];
     next_promise := S (S (next_promise s));
     clock := clock s |}.
Proof.
  intros Hcfg Hact Hne Hidle Htj Hpj Hti Hpi Hlock.
  assert ((i <? 0)%Z || (Z.of_nat (length (panels s)) <=? i)%Z = false) as Hrange.
  { apply at_index_Some in Hpi as [Hi Hl]. apply lookup_lt_Some in Hl.
    apply orb_false_iff. split; [apply Z.ltb_ge; lia|apply Z.leb_gt; lia]. }
  assert (active_is s i = false) as Hnot.
  { unfold active_is. rewrite Hact. apply Z.eqb_neq. congruence. }
  unfold togglePanel. rewrite Hrange, Hidle, Hcfg, Hnot, Hti, Hlock.
  cbn [negb andb].
  destruct_state s. cbn [config active triggers panels with_isTransitioning] in *.
  rewrite Hcfg. subst act.
  unfold_protocol. rewrite Htj, Hpj.
  rewrite !at_index_alter_at_ne by done. rewrite Hti, Hpi.
  unfold collapse_ops, expand_ops. rewrite <- !app_assoc. reflexivity.
Qed.

Lemma succ_eqb_false (n : nat) : (S n =? n)%nat = false.
Proof. apply Nat.eqb_neq. lia. Qed.

Lemma eqb_succ_false (n : nat) : (n =? S n)%nat = false.
Proof. apply Nat.eqb_neq. lia. Qed.

(** Unfold one timer firing, by value, in the equation [E]. *)
Ltac unfold_fire_in E :=
  cbv beta iota zeta delta
    [fire_at settle without_promise is_ready foldl map List.filter negb
     lookup list_lookup delete list_delete
     run_callback run_resume await new_promise
     setTimeout dispatchEvent forceReflow style_height_set classList_add
     classList_remove setAttribute_aria_expanded log with_timers with_panels
     with_triggers with_active with_isTransitioning with_frames with_clock
     config triggers panels active isTransitioning trace timers frames
     next_promise clock callback promise due awaiting resume fst snd] in E.

(** Evaluate the innermost [fire_at] of the goal on an explicit state. *)
Ltac fire :=
  match goal with
  | |- context [fire_at ?k ?s] =>
      lazymatch s with
      | context [fire_at] => fail
      | _ =>
          let x := fresh "x" in
          let E := fresh "E" in
          remember (fire_at k s) as x eqn:E;
          unfold_fire_in E;
          rewrite ?Nat.eqb_refl, ?succ_eqb_false, ?eqb_succ_false in E;
          repeat match goal with
                 | H : JS.truthy _ = _ |- _ => rewrite H in E
                 end;
          unfold_fire_in E; subst x
      end
  end.

(** X22. With [allowToggle] off and [_active] the index [j] of a pair, an
    accepted [togglePanel i] for [i <> j] starts [collapse(j)] and
    [expand(i)] in the same synchronous run (both "before" notifications are
    out and both timers are pending when the call suspends), waits for both
    timers, whichever fires first, and only then sets [_active] to [i] and
    releases the lock; [togglePanel j] itself changes nothing. *)
Theorem exclusive_swap_of_valid_active (s : State) (i j : Z) (tj ti : Trigger)
    (pj pi : Panel) :
  JS.truthy (allowToggle (config s)) = false →
  active s = Some j →
  i ≠ j →
  transitioning s = false →
  timers s = [] →
  frames s = [] →
  at_index (triggers s) j = Some tj →
  at_index (panels s) j = Some pj →
  at_index (triggers s) i = Some ti →
  at_index (panels s) i = Some pi →
  attr_is_true (aria_expanded ti) && attr_is_true (aria_disabled ti) = false →
  togglePanel j s = s
  ∧ since s (togglePanel i s) = collapse_ops j pj ++ expand_ops i pi
  ∧ map callback (timers (togglePanel i s)) = [CollapseDone j; ExpandDone i]
  ∧ active (togglePanel i s) = Some j
  ∧ isTransitioning (togglePanel i s) = Some true
  ∧ (∀ k, k < 2 →
       active (fire_at k (togglePanel i s)) = Some j
       ∧ isTransitioning (fire_at k (togglePanel i s)) = Some true
       ∧ length (timers (fire_at k (togglePanel i s))) = 1)
  ∧ (∀ k, k < 2 →
       let s2 := fire_at 0 (fire_at k (togglePanel i s)) in
       active s2 = Some i
       ∧ isTransitioning s2 = Some false
       ∧ timers s2 = [] ∧ frames s2 = []
       ∧ aria_expanded <$> at_index (triggers s2) j = Some (Some "false")
       ∧ expanded_class <$> at_index (panels s2) j = Some false
       ∧ aria_expanded <$> at_index (triggers s2) i = Some (Some "true")
       ∧ expanded_class <$> at_index (panels s2) i = Some true
       ∧ events_of (since s s2)
         = [(BEFORE_COLLAPSE, j); (BEFORE_EXPAND, i)]
           ++ (if decide (k = 0) then [(COLLAPSE, j); (EXPAND, i)]
               else [(EXPAND, i); (COLLAPSE, j)])).
Proof.
  intros Hcfg Hact Hne Hidle Htm Hfr Htj Hpj Hti Hpi Hlock.
  split.
  { apply togglePanel_rejected. unfold accepts, active_is.
    rewrite Hcfg, Hact, Z.eqb_refl. cbn. by rewrite andb_false_r. }
  rewrite (togglePanel_swap s i j tj ti pj pi) by done.
  rewrite Htm, Hfr. cbn [app].
  destruct_state s. cbn [config triggers panels active isTransitioning trace
    timers frames next_promise clock] in *.
  split_and!.
  - unfold since. cbn [trace]. by rewrite drop_app_length.
  - done.
  - done.
  - done.
  - intros k Hk. destruct k as [|[|k]]; [| |lia]; fire; done.
  - intros k Hk. destruct k as [|[|k]]; [| |lia]; fire; fire;
      cbv zeta; cbn [active isTransitioning timers frames triggers panels trace];
      (split_and!; [done|done|done|done|..]);
      try (by repeat (rewrite at_index_alter_at_eq
                      || rewrite at_index_alter_at_ne by congruence);
           rewrite ?Htj, ?Hpj, ?Hti, ?Hpi).
    + unfold since. cbn [trace]. by rewrite <- !app_assoc, drop_app_length.
    + unfold since. cbn [trace]. by rewrite <- !app_assoc, drop_app_length.
Qed.

Lemma exclusive_swap_of_valid_active_witness :
  let s := new_Accordion three_panels (options_of false false) in
  togglePanel 0 s = s
  ∧ active (togglePanel 2 s) = Some 0%Z
  ∧ active (fire_at 0 (fire_at 1 (togglePanel 2 s))) = Some 2%Z.
Proof.
  pose proof (exclusive_swap_of_valid_active
                (new_Accordion three_panels (options_of false false)) 2 0
                (trigger_of true false) (trigger_of false false)
                (set_class true (panel_of 300)) (panel_of 200)
                eq_refl eq_refl ltac:(discriminate) eq_refl eq_refl eq_refl
                eq_refl eq_refl eq_refl eq_refl eq_refl)
    as (H1 & _ & _ & H2 & _ & _ & H3).
  split_and!; [exact H1|exact H2|].
  exact (proj1 (H3 1 ltac:(lia))).
Defined.

(** C7 (the code where a child is skipped). The constructor leaves
    [_active = 1] on the root whose first child is no group, although the
    one pair has index 0.  With [allowToggle] off, [togglePanel 0] is
    accepted with [i = 0] and [j = 1]: [collapse(1)] throws before it
    notifies or sets a timer, [expand(0)] runs alone, nothing waits for it,
    and once its timer has fired [_active] is still 1 and the lock is still
    held.  [togglePanel 1] changes nothing. *)
Theorem C7_swap_never_completes_on_child_position :
  let s := new_Accordion skipped_first (options_of false false) in
  let s1 := togglePanel 0 s in
  JS.truthy (allowToggle (config s)) = false
  ∧ active s = Some 1%Z
  ∧ length (triggers s) = 1
  ∧ accepts 0 s = true
  ∧ events_of (since s s1) = [(BEFORE_EXPAND, 0%Z)]
  ∧ map callback (timers s1) = [ExpandDone 0]
  ∧ frames s1 = []
  ∧ events_of (since s (run_to_idle s1))
    = [(BEFORE_EXPAND, 0%Z); (EXPAND, 0%Z)]
  ∧ timers (run_to_idle s1) = []
  ∧ active (run_to_idle s1) = Some 1%Z
  ∧ isTransitioning (run_to_idle s1) = Some true
  ∧ togglePanel 1 s = s.
Proof. vm_compute. done. Qed.

(** ** C5: panels whose trigger is disabled *)

Lemma settle_fields (p : nat) (s : State) :
  triggers (settle p s) = triggers s
  ∧ panels (settle p s) = panels s
  ∧ trace (settle p s) = trace s
  ∧ timers (settle p s) = timers s.
Proof.
  unfold settle.
  generalize (List.filter is_ready (map (without_promise p) (frames s))).
  generalize (List.filter (λ f, negb (is_ready f))
                (map (without_promise p) (frames s))).
  intros fs rs.
  change (triggers s) with (triggers (with_frames fs s)).
  change (panels s) with (panels (with_frames fs s)).
  change (trace s) with (trace (with_frames fs s)).
  change (timers s) with (timers (with_frames fs s)).
  generalize (with_frames fs s). clear.
  induction rs as [|f rs IH]; intros s; [done|].
  cbn [foldl].
  destruct (IH (run_resume (resume f) s)) as (-> & -> & -> & ->).
  by destruct (run_resume_fields (resume f) s)
    as (_ & -> & -> & _ & -> & -> & _).
Qed.

Lemma run_callback_other (t : Timer) (k : Z) (s : State) :
  target (callback t) ≠ k →
  at_index (panels (run_callback t s)) k = at_index (panels s) k.
Proof.
  intros Hne. destruct_state s. destruct t as [d [i|i] p]; cbn in Hne;
    unfold_protocol; rewrite ?at_index_alter_at_ne by done; done.
Qed.

Lemma fire_at_other (n : nat) (k : Z) (s : State) :
  no_timer_on k s →
  at_index (triggers (fire_at n s)) k = at_index (triggers s) k
  ∧ at_index (panels (fire_at n s)) k = at_index (panels s) k
  ∧ no_timer_on k (fire_at n s).
Proof.
  unfold no_timer_on. intros Hall. unfold fire_at.
  destruct (timers s !! n) as [t|] eqn:Hn; [|done].
  assert (target (callback t) ≠ k) as Ht.
  { eapply (Forall_lookup_1 _ _ _ _ Hall Hn). }
  destruct (settle_fields (promise t)
    (run_callback t
       (with_clock (Nat.max (clock (with_timers (delete n) s)) (due t))
          (with_timers (delete n) s)))) as (-> & -> & _ & ->).
  rewrite run_callback_other by done.
  destruct (run_callback_fields t
    (with_clock (Nat.max (clock (with_timers (delete n) s)) (due t))
       (with_timers (delete n) s))) as (_ & -> & _ & _ & -> & _).
  cbn. split_and!; [done|done|].
  by apply Forall_delete.
Qed.

Lemma togglePanel_toggle_mode_other (i k : Z) (s : State) :
  JS.truthy (allowToggle (config s)) = true →
  locked k s = true →
  no_timer_on k s →
  at_index (triggers (togglePanel i s)) k = at_index (triggers s) k
  ∧ at_index (panels (togglePanel i s)) k = at_index (panels s) k
  ∧ no_timer_on k (togglePanel i s).
Proof.
  intros Hcfg Hk Hall. destruct (accepts i s) eqn:Hacc;
    [|by rewrite togglePanel_rejected].
  apply accepts_true in Hacc as (H1 & H2 & H3 & t & Ht & H4).
  assert (i ≠ k) as Hne.
  { intros ->. unfold locked in Hk. rewrite Ht in Hk. congruence. }
  unfold togglePanel. rewrite H1, H2, H3, Ht, H4. cbn. rewrite Hcfg.
  remember (with_isTransitioning true s) as s1 eqn:Es1.
  assert (triggers s1 = triggers s ∧ panels s1 = panels s
          ∧ timers s1 = timers s) as (Et & Ep & Etm) by (by subst s1).
  rewrite <- Et, <- Ep. unfold no_timer_on in *. rewrite <- Etm in Hall.
  clear Es1 Et Ep Etm.
  destruct (attr_is_true (aria_expanded t)).
  - pose proof (collapsePanel_frame i s1) as Hc. cbn in Hc.
    destruct (collapsePanel_other i k s1 Hne) as [Eo1 Eo2].
    destruct (collapsePanel i s1) as [[p|] s2]; cbn in Hc, Eo1, Eo2;
      destruct Hc as (_ & _ & _ & _ & _ & _ & _ & _ & Hc); cbn.
    + destruct Hc as (_ & ms & ->). split_and!; [done|done|].
      apply Forall_app. split; [done|]. by apply Forall_singleton.
    + rewrite Hc. done.
  - pose proof (expandPanel_frame i s1) as Hc. cbn in Hc.
    destruct (expandPanel_other i k s1 Hne) as [Eo1 Eo2].
    destruct (expandPanel i s1) as [[p|] s2]; cbn in Hc, Eo1, Eo2;
      destruct Hc as (_ & _ & _ & _ & _ & _ & _ & _ & Hc); cbn.
    + destruct Hc as (_ & ms & ->). split_and!; [done|done|].
      apply Forall_app. split; [done|]. by apply Forall_singleton.
    + rewrite Hc. done.
Qed.

(** C5 (amended). A panel whose trigger is disabled and expanded is never
    collapsed by a request for its own index, in any mode: that call returns
    the state unchanged.  With [allowToggle] on, no request for any index and
    no timer set by such a request touches that trigger or that panel: along
    every run its attributes, class and height stay as they are. *)
Theorem C5_locked_panel_stays_expanded (s : State) (k : Z) :
  locked k s = true →
  togglePanel k s = s
  ∧ (JS.truthy (allowToggle (config s)) = true →
     no_timer_on k s →
     ∀ acts,
       at_index (triggers (run acts s)) k = at_index (triggers s) k
       ∧ at_index (panels (run acts s)) k = at_index (panels s) k
       ∧ locked k (run acts s) = true).
Proof.
  intros Hk. split.
  - apply togglePanel_rejected. unfold accepts. unfold locked in Hk.
    destruct (at_index (triggers s) k) as [t|]; [|done].
    rewrite Hk. by rewrite andb_false_r.
  - intros Hcfg Hall acts. revert s Hk Hcfg Hall.
    induction acts as [|a acts IH]; intros s Hk Hcfg Hall; [done|].
    rewrite run_cons.
    assert (at_index (triggers (step a s)) k = at_index (triggers s) k
            ∧ at_index (panels (step a s)) k = at_index (panels s) k
            ∧ no_timer_on k (step a s)
            ∧ config (step a s) = config s) as (Et & Ep & Hall' & Ec).
    { destruct a as [i|n]; cbn [step].
      - destruct (togglePanel_toggle_mode_other i k s Hcfg Hk Hall)
          as (? & ? & ?). by rewrite togglePanel_config.
      - destruct (fire_at_other n k s Hall) as (? & ? & ?).
        by rewrite fire_at_config. }
    assert (locked k (step a s) = true) as Hk'.
    { unfold locked in *. by rewrite Et. }
    destruct (IH (step a s) Hk') as (-> & -> & ->);
      [by rewrite Ec|done|done].
Qed.

Lemma C5_locked_panel_stays_expanded_witness :
  let s := new_Accordion locked_first (options_of true false) in
  togglePanel 0 s = s
  ∧ at_index (panels (run [Toggle 1; Toggle 0; Fire 0; Toggle 0] s)) 0
    = at_index (panels s) 0.
Proof.
  pose proof (C5_locked_panel_stays_expanded
                (new_Accordion locked_first (options_of true false)) 0
                eq_refl) as [H1 H2].
  split; [exact H1|].
  exact (proj1 (proj2 (H2 eq_refl (Forall_nil_2 _)
                         [Toggle 1; Toggle 0; Fire 0; Toggle 0]))).
Defined.

(** With [allowToggle] off the swap collapses the active panel without
    looking at its trigger's disabled flag: on this page the request for
    panel 1 collapses panel 0, whose trigger is expanded and disabled. *)
Lemma C5_swap_collapses_disabled_panel :
  let s := new_Accordion locked_first (options_of false false) in
  let s' := run_to_idle (togglePanel 1 s) in
  locked 0 s = true
  ∧ expanded_panels s = [0%Z]
  ∧ events s' = [(BEFORE_COLLAPSE, 0%Z); (BEFORE_EXPAND, 1%Z);
                 (COLLAPSE, 0%Z); (EXPAND, 1%Z)]
  ∧ aria_expanded <$> at_index (triggers s') 0 = Some (Some "false")
  ∧ expanded_panels s' = [1%Z]
  ∧ locked 0 s' = false
  ∧ ¬ (∀ i k, locked k s = true →
              locked k (run_to_idle (togglePanel i s)) = true).
Proof.
  cbv zeta. split_and!; [by vm_compute..|].
  intros H. specialize (H 1%Z 0%Z eq_refl). vm_compute in H. done.
Qed.

(** ** The constructor's scan *)

Lemma scan_child_no_pair (cfg : Config) (i : Z) (c : Child)
    (acc : list Trigger * list Panel * option Z) :
  pair_of c = None → scan_child cfg i c acc = acc.
Proof.
  unfold scan_child, pair_of. destruct acc as [[ts ps] act].
  destruct (is_group c); [|done]. cbn.
  by destruct (q_trigger c), (q_panel c).
Qed.

Lemma scan_child_pair (cfg : Config) (i : Z) (c : Child) (ts : list Trigger)
    (ps : list Panel) (act : option Z) (t : Trigger) (p : Panel) :
  pair_of c = Some (t, p) →
  scan_child cfg i c (ts, ps, act) =
    if negb (JS.truthy (allowMultiple cfg)) && attr_is_true (aria_expanded t)
    then
      if negb (bool_decide (act = Some (-1)%Z))
      then (ts ++ [t], ps ++ [set_class false p], act)
      else (ts ++ [t], ps ++ [set_class true p], Some i)
    else (ts ++ [t], ps ++ [set_class (attr_is_true (aria_expanded t)) p], act).
Proof.
  unfold scan_child, pair_of.
  destruct (is_group c); [|done]. cbn.
  destruct (q_trigger c) as [t'|], (q_panel c) as [p'|]; try done.
  intros [= -> ->].
  destruct (negb (JS.truthy (allowMultiple cfg))); cbn; [|done].
  destruct (attr_is_true (aria_expanded t)); cbn; [|done].
  by destruct (bool_decide (act = Some (-1)%Z)).
Qed.

Lemma scan_app (cfg : Config) (i : Z) (l1 l2 : list Child)
    (acc : list Trigger * list Panel * option Z) :
  scan cfg i (l1 ++ l2) acc
  = scan cfg (i + Z.of_nat (length l1)) l2 (scan cfg i l1 acc).
Proof.
  revert i acc. induction l1 as [|c l1 IH]; intros i acc.
  - cbn. by rewrite Z.add_0_r.
  - cbn [app scan length]. rewrite IH. f_equal. lia.
Qed.

(** The scan appends the triggers of the valid pairs, untouched, and one
    panel for each; once [_active] is set it stays. *)
Lemma scan_shape (cfg : Config) (cs : list Child) (i : Z) (ts : list Trigger)
    (ps : list Panel) (act : option Z) :
  ∃ ps2 act',
    scan cfg i cs (ts, ps, act) = (ts ++ (omap pair_of cs).*1, ps ++ ps2, act')
    ∧ length ps2 = length (omap pair_of cs)
    ∧ (act ≠ Some (-1)%Z → act' = act).
Proof.
  revert i ts ps act. induction cs as [|c cs IH]; intros i ts ps act.
  - exists [], act. cbn. by rewrite !app_nil_r.
  - cbn [scan omap list_omap]. destruct (pair_of c) as [[t p]|] eqn:Hc.
    + rewrite (scan_child_pair _ _ _ _ _ _ t p Hc).
      destruct (negb (JS.truthy (allowMultiple cfg))
                && attr_is_true (aria_expanded t));
        [destruct (bool_decide_reflect (act = Some (-1)%Z)); cbn [negb]|].
      * destruct (IH (i + 1)%Z (ts ++ [t]) (ps ++ [set_class true p]) (Some i))
          as (ps2 & act' & -> & Hlen & Hkeep).
        exists (set_class true p :: ps2), act'. cbn.
        rewrite <- !app_assoc. split_and!; [done|by rewrite Hlen|done].
      * destruct (IH (i + 1)%Z (ts ++ [t]) (ps ++ [set_class false p]) act)
          as (ps2 & act' & -> & Hlen & Hkeep).
        exists (set_class false p :: ps2), act'. cbn.
        rewrite <- !app_assoc. split_and!; [done|by rewrite Hlen|done].
      * destruct (IH (i + 1)%Z (ts ++ [t])
                    (ps ++ [set_class (attr_is_true (aria_expanded t)) p]) act)
          as (ps2 & act' & -> & Hlen & Hkeep).
        exists (set_class (attr_is_true (aria_expanded t)) p :: ps2), act'.
        cbn. rewrite <- !app_assoc. split_and!; [done|by rewrite Hlen|done].
    + rewrite scan_child_no_pair by done. apply IH.
Qed.

(** With [allowMultiple] off, after a pair flagged expanded has been scanned
    [_active] is no longer [-1]. *)
Lemma scan_found (cfg : Config) (cs : list Child) (i : Z) (ts : list Trigger)
    (ps : list Panel) (act : option Z) :
  JS.truthy (allowMultiple cfg) = false →
  (0 ≤ i)%Z →
  existsb flagged_expanded cs = true →
  (scan cfg i cs (ts, ps, act)).2 ≠ Some (-1)%Z.
Proof.
  intros Hm. revert i ts ps act.
  induction cs as [|c cs IH]; intros i ts ps act Hi Hex; [done|].
  cbn [scan]. cbn [existsb] in Hex.
  assert (∀ acc, acc.2 ≠ Some (-1)%Z →
                 (scan cfg (i + 1) cs acc).2 ≠ Some (-1)%Z) as Hkeep.
  { intros [[ts' ps'] act'] Hne.
    destruct (scan_shape cfg cs (i + 1) ts' ps' act')
      as (ps2 & act2 & -> & _ & Hk). cbn in *. by rewrite Hk. }
  unfold flagged_expanded in Hex at 1.
  destruct (pair_of c) as [[t p]|] eqn:Hc.
  - rewrite (scan_child_pair _ _ _ _ _ _ t p Hc), Hm. cbn [negb andb].
    destruct (attr_is_true (aria_expanded t)).
    + destruct (bool_decide_reflect (act = Some (-1)%Z)); cbn [negb];
        apply Hkeep; cbn; [|done]. intros [= ?]. lia.
    + cbn in Hex. destruct (scan cfg (i + 1) cs _) as [[? ?] ?] eqn:E.
      pose proof (IH (i + 1)%Z (ts ++ [t]) (ps ++ [set_class false p]) act
                    ltac:(lia) Hex) as H.
      by rewrite E in H.
  - rewrite scan_child_no_pair by done. cbn in Hex. apply IH; [lia|done].
Qed.

(** ** C9: which flag [togglePanel] reads *)

Lemma togglePanel_collapse (s : State) (i : Z) (t : Trigger) (p : Panel) :
  JS.truthy (allowToggle (config s)) = true →
  transitioning s = false →
  at_index (triggers s) i = Some t →
  at_index (panels s) i = Some p →
  attr_is_true (aria_expanded t) = true →
  attr_is_true (aria_disabled t) = false →
  togglePanel i s =
  {| config := config s;
     triggers := alter_at (set_aria_expanded "false") i (triggers s);
     panels := alter_at (set_height HZero) i
                 (alter_at (set_height (HPx (rect_height p))) i (panels s));
     active := active s;
     isTransitioning := Some true;
     trace := trace s ++ collapse_ops i p;
     timers := timers s ++
               [{| due := clock s + transition_ms p;
                   callback := CollapseDone i;
                   promise := next_promise s |}];
     frames := frames s ++
               [{| awaiting := [next_promise s]; resume := AfterCollapse |}];
     next_promise := S (next_promise s);
     clock := clock s |}.
Proof.
  intros Hcfg Hidle Ht Hp Hexp Hdis.
  assert ((i <? 0)%Z || (Z.of_nat (length (panels s)) <=? i)%Z = false)
    as Hrange.
  { apply at_index_Some in Hp as [Hi Hl]. apply lookup_lt_Some in Hl.
    apply orb_false_iff. split; [apply Z.ltb_ge; lia|apply Z.leb_gt; lia]. }
  unfold togglePanel. rewrite Hrange, Hidle, Hcfg, Ht, Hexp, Hdis.
  cbn [negb andb].
  destruct_state s.
  cbn [config active triggers panels with_isTransitioning] in *.
  rewrite Hcfg. unfold_protocol. rewrite Ht, Hp.
  unfold collapse_ops. rewrite <- !app_assoc. reflexivity.
Qed.

(** A request that takes the collapse path, run to completion from an idle
    state with [allowMultiple] off. *)
Lemma toggle_collapse_run (s : State) (i : Z) (t : Trigger) (p : Panel) :
  JS.truthy (allowToggle (config s)) = true →
  JS.truthy (allowMultiple (config s)) = false →
  transitioning s = false →
  timers s = [] →
  frames s = [] →
  at_index (triggers s) i = Some t →
  at_index (panels s) i = Some p →
  attr_is_true (aria_expanded t) = true →
  attr_is_true (aria_disabled t) = false →
  since s (togglePanel i s) = collapse_ops i p
  ∧ events_of (since s (run_to_idle (togglePanel i s)))
    = [(BEFORE_COLLAPSE, i); (COLLAPSE, i)]
  ∧ active (run_to_idle (togglePanel i s)) = Some (-1)%Z
  ∧ isTransitioning (run_to_idle (togglePanel i s)) = Some false.
Proof.
  intros Hcfg Hm Hidle Htm Hfr Ht Hp Hexp Hdis.
  rewrite (togglePanel_collapse s i t p) by done.
  rewrite Htm, Hfr. cbn [app].
  destruct_state s. cbn [config triggers panels active isTransitioning trace
    timers frames next_promise clock] in *.
  unfold run_to_idle. cbn [timers length]. unfold Nat.iter. cbn [nat_rect].
  unfold run_next. cbn [timers earliest earliest_from fst].
  fire. unfold since. cbn [trace active isTransitioning].
  rewrite <- !app_assoc, !drop_app_length. done.
Qed.

(** With [allowToggle] off the request for the conflicting pair goes through
    the swap instead: the active panel is collapsed and the conflicting one
    expanded.  With [allowToggle] on and the conflicting trigger disabled,
    the request is ignored.  In neither case are the collapse notifications
    emitted for the conflicting pair. *)
Lemma C9_always_open_mode_expands_instead :
  let s := new_Accordion two_flagged (options_of false false) in
  let d := new_Accordion two_flagged_locked (options_of true false) in
  JS.truthy (allowMultiple (config s)) = false
  ∧ aria_expanded <$> at_index (triggers s) 1 = Some (Some "true")
  ∧ expanded_class <$> at_index (panels s) 1 = Some false
  ∧ events (run_to_idle (togglePanel 1 s))
    = [(BEFORE_COLLAPSE, 0%Z); (BEFORE_EXPAND, 1%Z);
       (COLLAPSE, 0%Z); (EXPAND, 1%Z)]
  ∧ ¬ stale_flag_collapses two_flagged (options_of false false) 1
  ∧ aria_expanded <$> at_index (triggers d) 1 = Some (Some "true")
  ∧ expanded_class <$> at_index (panels d) 1 = Some false
  ∧ events (run_to_idle (togglePanel 1 d)) = []
  ∧ ¬ stale_flag_collapses two_flagged_locked (options_of true false) 1.
Proof.
  cbv zeta. unfold stale_flag_collapses.
  split_and!; try (by vm_compute); vm_compute; done.
Qed.

(** C9 (amended). [togglePanel] decides by the trigger's aria-expanded
    attribute, not by the panel's class.  The constructor, with
    [allowMultiple] off, removes the expanded class of a later pair whose
    flag conflicts but leaves that trigger's attribute as it was.  So, when
    [allowToggle] is on and that trigger is not disabled, a request for that
    index after construction takes the collapse path and emits
    before-collapse and collapse for it, although the panel is already
    visually collapsed. *)
Theorem C9_stale_flag_takes_collapse_path (root : Root) (options : Options)
    (pre post : list Child) (c : Child) (t : Trigger) (p : Panel) :
  JS.truthy (allowMultiple (getConfig options (dataset root))) = false →
  JS.truthy (allowToggle (getConfig options (dataset root))) = true →
  children root = pre ++ c :: post →
  existsb flagged_expanded pre = true →
  pair_of c = Some (t, p) →
  attr_is_true (aria_expanded t) = true →
  attr_is_true (aria_disabled t) = false →
  let k := Z.of_nat (length (omap pair_of pre)) in
  let s := new_Accordion root options in
  at_index (triggers s) k = Some t
  ∧ at_index (panels s) k = Some (set_class false p)
  ∧ since s (togglePanel k s) = collapse_ops k p
  ∧ events (run_to_idle (togglePanel k s))
    = [(BEFORE_COLLAPSE, k); (COLLAPSE, k)]
  ∧ active (run_to_idle (togglePanel k s)) = Some (-1)%Z.
Proof.
  intros Hm Htg Hch Hex Hc Hexp Hdis k s.
  destruct (new_Accordion_idle root options)
    as (Htm & Hfr & Htr & Hidle & Hcfg).
  fold s in Htm, Hfr, Htr, Hidle, Hcfg.
  assert (at_index (triggers s) k = Some t
          ∧ at_index (panels s) k = Some (set_class false p)) as [Ht Hp].
  { subst s k. unfold new_Accordion. rewrite Hch, scan_app, Hm.
    destruct (scan_shape (getConfig options (dataset root)) pre 0 [] []
                (Some (-1)%Z)) as (ps1 & act1 & E1 & Hlen1 & _).
    pose proof (scan_found (getConfig options (dataset root)) pre 0 [] []
                  (Some (-1)%Z) Hm ltac:(lia) Hex) as Hact1.
    rewrite E1 in Hact1 |- *. cbn in Hact1. cbn [scan app].
    rewrite (scan_child_pair _ _ _ _ _ _ t p Hc), Hm, Hexp. cbn [negb andb].
    rewrite bool_decide_eq_false_2 by done. cbn [negb].
    destruct (scan_shape (getConfig options (dataset root)) post
                (0 + Z.of_nat (length pre) + 1)
                ((omap pair_of pre).*1 ++ [t]) (ps1 ++ [set_class false p])
                act1) as (ps2 & act2 & -> & _ & _).
    rewrite Htg. cbn [negb andb].
    assert (∀ ps', at_index (((omap pair_of pre).*1 ++ [t]) ++ ps')
                     (Z.of_nat (length (omap pair_of pre))) = Some t) as Hlt.
    { intros ps'. unfold at_index.
      destruct (Z.ltb_spec (Z.of_nat (length (omap pair_of pre))) 0); [lia|].
      rewrite Nat2Z.id, <- app_assoc.
      rewrite <- (length_fmap fst (omap pair_of pre)).
      apply list_lookup_middle. done. }
    assert (∀ ps', at_index ((ps1 ++ [set_class false p]) ++ ps')
                     (Z.of_nat (length (omap pair_of pre)))
                   = Some (set_class false p)) as Hlp.
    { intros ps'. unfold at_index.
      destruct (Z.ltb_spec (Z.of_nat (length (omap pair_of pre))) 0); [lia|].
      rewrite Nat2Z.id, <- app_assoc, <- Hlen1.
      apply list_lookup_middle. done. }
    destruct (length _ =? 0)%nat eqn:El.
    - apply Nat.eqb_eq in El. rewrite !length_app in El. cbn in El. lia.
    - cbn [triggers panels]. auto. }
  rewrite <- Hcfg in Hm, Htg.
  destruct (toggle_collapse_run s k t (set_class false p)
              Htg Hm Hidle Htm Hfr Ht Hp Hexp Hdis) as (H1 & H2 & H3 & _).
  split_and!; [done|done|done| |done].
  unfold events. unfold since in H2. rewrite Htr in H2. exact H2.
Qed.

Lemma C9_stale_flag_takes_collapse_path_witness :
  let s := new_Accordion two_flagged (options_of true false) in
  at_index (panels s) 1 = Some (set_class false (panel_of 300))
  ∧ events (run_to_idle (togglePanel 1 s))
    = [(BEFORE_COLLAPSE, 1%Z); (COLLAPSE, 1%Z)].
Proof.
  pose proof (C9_stale_flag_takes_collapse_path two_flagged
                (options_of true false) [group_of true false 300] []
                (group_of true false 300) (trigger_of true false)
                (panel_of 300) eq_refl eq_refl eq_refl eq_refl eq_refl
                eq_refl eq_refl) as (_ & H1 & _ & H2 & _).
  split; [exact H1|exact H2].
Defined.

(** ** C6: the index the constructor stores *)

Lemma scan_not_found (cfg : Config) (cs : list Child) (i : Z)
    (ts : list Trigger) (ps : list Panel) :
  existsb flagged_expanded cs = false →
  (scan cfg i cs (ts, ps, Some (-1)%Z)).2 = Some (-1)%Z.
Proof.
  revert i ts ps. induction cs as [|c cs IH]; intros i ts ps Hex; [done|].
  cbn [scan]. cbn [existsb] in Hex. apply orb_false_iff in Hex as [Hc Hex].
  unfold flagged_expanded in Hc.
  destruct (pair_of c) as [[t p]|] eqn:Hp.
  - rewrite (scan_child_pair _ _ _ _ _ _ t p Hp), Hc, andb_false_r.
    by apply IH.
  - rewrite scan_child_no_pair by done. by apply IH.
Qed.

(** With [allowMultiple] off, [_active] after construction is the position
    among the root's children of the first pair flagged expanded, whatever
    number of children before it were skipped. *)
Lemma new_Accordion_active (root : Root) (options : Options)
    (pre post : list Child) (c : Child) :
  JS.truthy (allowMultiple (getConfig options (dataset root))) = false →
  children root = pre ++ c :: post →
  existsb flagged_expanded pre = false →
  flagged_expanded c = true →
  active (new_Accordion root options) = Some (Z.of_nat (length pre)).
Proof.
  intros Hm Hch Hpre Hc. unfold new_Accordion. rewrite Hch, scan_app, Hm.
  pose proof (scan_not_found (getConfig options (dataset root)) pre 0 [] []
                Hpre) as Hact.
  destruct (scan _ 0 pre _) as [[ts1 ps1] act1]. cbn in Hact. subst act1.
  cbn [scan]. unfold flagged_expanded in Hc.
  destruct (pair_of c) as [[t p]|] eqn:Hp; [|done].
  rewrite (scan_child_pair _ _ _ _ _ _ t p Hp), Hm, Hc. cbn [negb andb].
  rewrite bool_decide_eq_true_2 by done. cbn [negb].
  destruct (scan_shape (getConfig options (dataset root)) post
              (0 + Z.of_nat (length pre) + 1) (ts1 ++ [t])
              (ps1 ++ [set_class true p]) (Some (0 + Z.of_nat (length pre))%Z))
    as (ps2 & act2 & -> & _ & Hkeep).
  rewrite Hkeep by (intros [= ?]; lia).
  destruct (length _ =? 0)%nat eqn:El.
  - apply Nat.eqb_eq in El. rewrite !length_app in El. cbn in El. lia.
  - rewrite bool_decide_eq_false_2 by (intros [= ?]; lia).
    rewrite andb_false_r. done.
Qed.

(** C6 (the code where a child is skipped). The only valid pair has
    position 0 in the group and is flagged expanded, but the constructor
    stores 1, the position among the root's children; no trigger has that
    index.  With [allowToggle] off, the request for panel 0 is then accepted
    although that panel is the open one, [_collapsePanel(1)] throws, and the
    lock is never released. *)
Theorem C6_active_is_child_position :
  let s := new_Accordion skipped_first (options_of true false) in
  let a := new_Accordion skipped_first (options_of false false) in
  omap pair_of (children skipped_first)
  = [(trigger_of true false, panel_of 300)]
  ∧ length (triggers s) = 1
  ∧ expanded_panels s = [0%Z]
  ∧ active s = Some 1%Z
  ∧ at_index (triggers s) 1 = None
  ∧ active a = Some 1%Z
  ∧ accepts 0 a = true
  ∧ timers (run_to_idle (togglePanel 0 a)) = []
  ∧ isTransitioning (run_to_idle (togglePanel 0 a)) = Some true.
Proof. vm_compute. done. Qed.

(** ** C1 and C2: single-active toggle mode *)

(** C1 (the code on Scenario A). With allowToggle on and allowMultiple off,
    panel 0 the only expanded one, [togglePanel 1] is accepted and runs
    [expand(1)] alone: the notifications are before-expand and expand for
    panel 1, nothing is emitted for panel 0, and at the end panels 0 and 1
    are both expanded with [_active] at 1. *)
Theorem C1_toggle_mode_does_not_collapse_active :
  let s := new_Accordion three_panels (options_of true false) in
  let s' := run_to_idle (togglePanel 1 s) in
  expanded_panels s = [0%Z]
  ∧ active s = Some 0%Z
  ∧ accepts 1 s = true
  ∧ events s' = [(BEFORE_EXPAND, 1%Z); (EXPAND, 1%Z)]
  ∧ aria_expanded <$> at_index (triggers s') 0 = Some (Some "true")
  ∧ expanded_panels s' = [0%Z; 1%Z]
  ∧ active s' = Some 1%Z
  ∧ isTransitioning s' = Some false.
Proof. vm_compute. done. Qed.

(** C2 (the code at two quiescent points). With allowMultiple off: after the
    completed request of Scenario A the controller is idle with two panels
    expanded; and right after construction on a root whose first child is
    skipped, the one expanded panel has index 0 while [_active] is 1. *)
Theorem C2_quiescent_states_break_single_active :
  let s' := run_to_idle
              (togglePanel 1
                 (new_Accordion three_panels (options_of true false))) in
  let c := new_Accordion skipped_first (options_of true false) in
  JS.truthy (allowMultiple (config s')) = false
  ∧ transitioning s' = false
  ∧ timers s' = [] ∧ frames s' = []
  ∧ expanded_panels s' = [0%Z; 1%Z]
  ∧ active s' = Some 1%Z
  ∧ JS.truthy (allowMultiple (config c)) = false
  ∧ transitioning c = false
  ∧ expanded_panels c = [0%Z]
  ∧ active c = Some 1%Z.
Proof. vm_compute. done. Qed.

(** ** Start-up: the configuration read by [initAll] *)

Lemma config_multiple_needs_toggle (options : Options) (ds : Dataset) :
  JS.truthy (allowMultiple (getConfig options ds)) = true →
  JS.truthy (allowToggle (getConfig options ds)) = true.
Proof.
  unfold getConfig, JS.and. cbn.
  destruct (JS.truthy (JS.or _ _)) eqn:E; [done|]. by rewrite E.
Qed.

(** X1. A setting is on when the options give a truthy value or the dataset
    entry is present and non-empty: a falsy option (an explicit [false]
    included) does not switch off what the dataset switches on, and
    [allowMultiple] needs [allowToggle] besides its own setting. *)
Theorem getConfig_settings (options : Options) (ds : Dataset) :
  JS.truthy (allowToggle (getConfig options ds))
  = JS.truthy (opt_allowToggle options) || data_set (data_allowToggle ds)
  ∧ JS.truthy (allowMultiple (getConfig options ds))
    = (JS.truthy (opt_allowToggle options) || data_set (data_allowToggle ds))
      && (JS.truthy (opt_allowMultiple options)
          || data_set (data_allowMultiple ds)).
Proof.
  unfold getConfig, JS.and, JS.or, JS.to_bool, data_set. cbn.
  destruct (JS.truthy (opt_allowToggle options)) eqn:E1; cbn.
  - rewrite E1.
    destruct (JS.truthy (opt_allowMultiple options)) eqn:E2; cbn; by rewrite ?E2.
  - destruct (JS.truthy (JS.of_attr (data_allowToggle ds))); cbn; [|done].
    destruct (JS.truthy (opt_allowMultiple options)) eqn:E2; cbn; by rewrite ?E2.
Qed.

(** X2. [initAll] builds one controller per root, each configured from its
    own dataset alone, with boolean settings: toggling is on exactly when
    [data-allow-toggle] is a non-empty string, whatever the string says. *)
Theorem initAll_config (roots : list Root) :
  length (initAll roots) = length roots
  ∧ config <$> initAll roots
    = (λ r, {| allowToggle :=
                 JS.Bool (data_set (data_allowToggle (dataset r)));
               allowMultiple :=
                 JS.Bool (data_set (data_allowToggle (dataset r))
                          && data_set (data_allowMultiple (dataset r))) |})
      <$> roots.
Proof.
  unfold initAll. split; [by rewrite length_map|].
  induction roots as [|r roots IH]; [done|].
  cbn [map fmap list_fmap]. f_equal; [|exact IH].
  destruct (new_Accordion_idle r default_options) as (_ & _ & _ & _ & ->).
  unfold getConfig, default_options, JS.and, JS.or, JS.to_bool, data_set. cbn.
  by destruct (JS.truthy (JS.of_attr (data_allowToggle (dataset r)))).
Qed.

(** ** Duration parsing *)

Lemma split_comma_nonempty (s : string) : split_comma s ≠ [].
Proof.
  destruct s as [|c r]; cbn; [done|].
  destruct (Ascii.eqb c ","); [done|]. by destruct (split_comma r).
Qed.

Lemma array_toString_split_comma (s : string) :
  array_toString (split_comma s) = s.
Proof.
  induction s as [|c r IH]; [done|].
  cbn [split_comma]. pose proof (split_comma_nonempty r) as Hne.
  destruct (Ascii.eqb_spec c ","%char) as [->|Hc];
    destruct (split_comma r) as [|h t] eqn:E; try done.
  - cbn [array_toString]. cbn. by rewrite <- IH.
  - rewrite <- IH. cbn [array_toString]. by destruct t.
Qed.

(** X3. Converting the array [s.split(',')] back to a string gives [s]
    again, so [parseFloat(duration.split(','))] reads the whole computed
    value, and no piece of the split contains a comma. *)
Theorem split_comma_toString (s : string) :
  array_toString (split_comma s) = s
  ∧ Forall (λ piece, ∀ a b, piece ≠ a +:+ String ","%char b) (split_comma s).
Proof.
  split; [apply array_toString_split_comma|].
  - induction s as [|c r IH].
    + cbn. apply Forall_singleton. intros [|? a] b; cbn; discriminate.
    + cbn [split_comma]. destruct (Ascii.eqb_spec c ","%char) as [->|Hc].
      * apply Forall_cons. split; [|done].
        intros [|? a] b; cbn; discriminate.
      * pose proof (split_comma_nonempty r) as Hne.
        destruct (split_comma r) as [|h t] eqn:E; [done|].
        apply Forall_cons in IH as [Hh Ht]. apply Forall_cons. split; [|done].
        intros [|x a] b; cbn; intros [= ? ?]; [congruence|].
        by eapply Hh.
Qed.

(** X4. [getTransitionDuration] is computed from the two whole strings: it
    is [0] when both are empty or absent, and otherwise
    [(parseFloat duration + parseFloat delay) * 1000], replaced by [0] when
    that is [NaN]; the [split(',')] changes nothing. *)
Theorem getTransitionDuration_whole_strings {number : Type}
    (parseFloat : string → number) (plus : number → number → number)
    (times1000 : number → number) (isNaN : number → bool) (zero : number)
    (transitionDuration transitionDelay : option string) :
  getTransitionDuration parseFloat plus times1000 isNaN zero
    transitionDuration transitionDelay
  = let duration := default EmptyString transitionDuration in
    let delay := default EmptyString transitionDelay in
    if bool_decide (duration = EmptyString ∧ delay = EmptyString) then zero
    else if isNaN (times1000 (plus (parseFloat duration) (parseFloat delay)))
         then zero
         else times1000 (plus (parseFloat duration) (parseFloat delay)).
Proof.
  unfold getTransitionDuration. cbv zeta.
  rewrite !array_toString_split_comma.
  destruct (default EmptyString transitionDuration) as [|c1 r1],
    (default EmptyString transitionDelay) as [|c2 r2]; cbn [JS.truthy negb andb];
    [rewrite bool_decide_eq_true_2 by done; done
    |rewrite bool_decide_eq_false_2 by (intros [? ?]; done); done..].
Qed.

(** ** Keyboard input *)

Lemma focus_trigger_in_range (k : Z) (s : State) :
  (0 ≤ k < Z.of_nat (length (triggers s)))%Z →
  focus_trigger (Some k) s
  = {| key_state := s; focused := Some k; defaultPrevented := true;
       thrown := None |}.
Proof.
  intros Hk. unfold focus_trigger, at_index.
  destruct (Z.ltb_spec k 0); [lia|].
  destruct (lookup_lt_is_Some_2 (triggers s) (Z.to_nat k)) as [t ->]; [lia|].
  done.
Qed.

(** X5. Arrow keys move the focus cyclically and never touch the
    controller: from trigger [c] of [n], Down focuses the next trigger and
    wraps from the last to the first, Up focuses the previous one and wraps
    from the first to the last, each undoes the other, Home focuses the
    first; in every case the default action is prevented and nothing is
    thrown. *)
Theorem arrow_keys_cycle (g : Globals) (c : Z) (s : State) :
  (0 ≤ c < Z.of_nat (length (triggers s)))%Z →
  let n := Z.of_nat (length (triggers s)) in
  let down := if bool_decide (c = n - 1)%Z then 0%Z else (c + 1)%Z in
  let up := if bool_decide (c = 0)%Z then (n - 1)%Z else (c - 1)%Z in
  let done_at k := {| key_state := s; focused := Some k;
                      defaultPrevented := true; thrown := None |} in
  handleTriggerKeyDown g Keys_DOWN c s = done_at down
  ∧ handleTriggerKeyDown g Keys_UP c s = done_at up
  ∧ handleTriggerKeyDown g Keys_HOME c s = done_at 0%Z
  ∧ handleTriggerKeyDown g Keys_UP down s = done_at c
  ∧ handleTriggerKeyDown g Keys_DOWN up s = done_at c
  ∧ (0 ≤ down < n)%Z ∧ (0 ≤ up < n)%Z.
Proof.
  intros Hc. cbv zeta.
  set (n := Z.of_nat (length (triggers s))) in *.
  assert (∀ x, (0 ≤ x < n)%Z →
     js_rem (n + x + 1) n
     = Some (if bool_decide (x = n - 1)%Z then 0 else x + 1)%Z) as Hdown.
  { intros x Hx. unfold js_rem. destruct (Z.eqb_spec n 0); [lia|]. f_equal.
    rewrite Z.rem_mod_nonneg by lia. case_bool_decide.
    - subst x. replace (n + (n - 1) + 1)%Z with (2 * n)%Z by lia.
      by rewrite Z.mod_mul by lia.
    - replace (n + x + 1)%Z with ((x + 1) + 1 * n)%Z by lia.
      rewrite Z.mod_add by lia. apply Z.mod_small. lia. }
  assert (∀ x, (0 ≤ x < n)%Z →
     js_rem (n + x - 1) n
     = Some (if bool_decide (x = 0)%Z then n - 1 else x - 1)%Z) as Hup.
  { intros x Hx. unfold js_rem. destruct (Z.eqb_spec n 0); [lia|]. f_equal.
    rewrite Z.rem_mod_nonneg by lia. case_bool_decide.
    - subst x. replace (n + 0 - 1)%Z with (n - 1)%Z by lia.
      apply Z.mod_small. lia.
    - replace (n + x - 1)%Z with ((x - 1) + 1 * n)%Z by lia.
      rewrite Z.mod_add by lia. apply Z.mod_small. lia. }
  assert (∀ k, (0 ≤ k < n)%Z →
     focus_trigger (Some k) s
     = {| key_state := s; focused := Some k; defaultPrevented := true;
          thrown := None |}) as Hfocus
    by (intros k Hk; by apply focus_trigger_in_range).
  set (down := if bool_decide (c = n - 1)%Z then 0%Z else (c + 1)%Z).
  set (up := if bool_decide (c = 0)%Z then (n - 1)%Z else (c - 1)%Z).
  assert (0 ≤ down < n)%Z as Hd by (subst down; case_bool_decide; lia).
  assert (0 ≤ up < n)%Z as Hu by (subst up; case_bool_decide; lia).
  assert (∀ x, handleTriggerKeyDown g Keys_DOWN x s
               = focus_trigger (js_rem (n + x + 1) n) s) as Ekd by done.
  assert (∀ x, handleTriggerKeyDown g Keys_UP x s
               = focus_trigger (js_rem (n + x - 1) n) s) as Eku by done.
  assert (∀ x, handleTriggerKeyDown g Keys_HOME x s
               = focus_trigger (Some 0%Z) s) as Ekh by done.
  assert ((if bool_decide (down = 0)%Z then n - 1 else down - 1)%Z = c)
    as Hud by (subst down; repeat case_bool_decide; lia).
  assert ((if bool_decide (up = n - 1)%Z then 0 else up + 1)%Z = c)
    as Hdu by (subst up; repeat case_bool_decide; lia).
  rewrite !Ekd, !Eku, Ekh, !Hdown, !Hup by done.
  fold down up. rewrite Hud, Hdu.
  rewrite (Hfocus 0%Z), (Hfocus down), (Hfocus up), (Hfocus c) by lia.
  done.
Qed.

Lemma arrow_keys_cycle_witness :
  let s := new_Accordion three_panels (options_of true false) in
  handleTriggerKeyDown no_globals Keys_DOWN 2 s
  = {| key_state := s; focused := Some 0%Z; defaultPrevented := true;
       thrown := None |}.
Proof.
  exact (proj1 (arrow_keys_cycle no_globals 2
                  (new_Accordion three_panels (options_of true false))
                  ltac:(vm_compute; split; [discriminate|reflexivity]))).
Defined.

(** X6. Activation from the keyboard does not work: the handler reads an
    identifier [i] that it never declares, so with no such global binding
    Enter and Space end in a ReferenceError before [togglePanel] is called
    and before the default action is prevented; End fails the same way on
    [toggleCount].  With [i] unbound no key press of any kind changes the
    controller, and a key other than the six handled ones does nothing. *)
Theorem keyboard_never_toggles (g : Globals) (keyCode current : Z)
    (s : State) :
  global_i g = None →
  key_state (handleTriggerKeyDown g keyCode current s) = s
  ∧ (keyCode = Keys_ENTER ∨ keyCode = Keys_SPACE →
     handleTriggerKeyDown g keyCode current s
     = {| key_state := s; focused := None; defaultPrevented := false;
          thrown := Some ReferenceError |})
  ∧ (keyCode = Keys_END → global_toggleCount g = None →
     handleTriggerKeyDown g keyCode current s
     = {| key_state := s; focused := None; defaultPrevented := false;
          thrown := Some ReferenceError |})
  ∧ (keyCode ∉ [Keys_ENTER; Keys_SPACE; Keys_END; Keys_HOME; Keys_UP;
                Keys_DOWN] →
     handleTriggerKeyDown g keyCode current s
     = {| key_state := s; focused := None; defaultPrevented := false;
          thrown := None |}).
Proof.
  intros Hg. split_and!.
  - unfold handleTriggerKeyDown, focus_trigger. rewrite Hg.
    repeat case_match; done.
  - unfold handleTriggerKeyDown. rewrite Hg. by intros [-> | ->].
  - unfold handleTriggerKeyDown. intros -> ->. done.
  - intros Hk. unfold handleTriggerKeyDown.
    repeat match goal with
    | |- context [(keyCode =? ?k)%Z] =>
        destruct (Z.eqb_spec keyCode k) as [->|?];
        [exfalso; apply Hk; by repeat constructor|]
    end. done.
Qed.

Lemma keyboard_never_toggles_witness :
  let s := new_Accordion three_panels (options_of true false) in
  handleTriggerKeyDown no_globals Keys_ENTER 1 s
  = {| key_state := s; focused := None; defaultPrevented := false;
       thrown := Some ReferenceError |}.
Proof.
  exact (proj1 (proj2 (keyboard_never_toggles no_globals Keys_ENTER 1
                         (new_Accordion three_panels (options_of true false))
                         eq_refl)) (or_introl eq_refl)).
Defined.

(** ** The constructor *)

Lemma fmap_alter_same {A B} (f : A → B) (g : A → A) (i : nat) (l : list A) :
  (∀ x, f (g x) = f x) → f <$> alter g i l = f <$> l.
Proof.
  intros Hfg. revert i. induction l as [|x l IH]; intros [|i]; cbn; [done..| |].
  - by rewrite Hfg.
  - by rewrite IH.
Qed.

Lemma fmap_alter_at_same {A B} (f : A → B) (g : A → A) (i : Z) (l : list A) :
  (∀ x, f (g x) = f x) → f <$> alter_at g i l = f <$> l.
Proof.
  intros Hfg. unfold alter_at. case_match; [done|]. by apply fmap_alter_same.
Qed.

Lemma expanded_from_length (k : Z) (ps : list Panel) :
  length (expanded_from k ps) = open_count ps.
Proof.
  unfold open_count. revert k. induction ps as [|p ps IH]; intros k; [done|].
  cbn. destruct (expanded_class p); cbn; by rewrite IH.
Qed.

Lemma open_count_app (ps qs : list Panel) :
  open_count (ps ++ qs) = open_count ps + open_count qs.
Proof. unfold open_count. by rewrite List.filter_app, length_app. Qed.

(** The scan keeps the panels of the valid pairs, in order, and decides
    their class only. *)
Lemma scan_pairs (cfg : Config) (cs : list Child) (i : Z) (ts : list Trigger)
    (ps : list Panel) (act : option Z) :
  ∃ ps2 act',
    scan cfg i cs (ts, ps, act) = (ts ++ (omap pair_of cs).*1, ps ++ ps2, act')
    ∧ set_class false <$> ps2 = set_class false <$> (omap pair_of cs).*2.
Proof.
  revert i ts ps act. induction cs as [|c cs IH]; intros i ts ps act.
  - exists [], act. cbn. by rewrite !app_nil_r.
  - cbn [scan omap list_omap]. destruct (pair_of c) as [[t p]|] eqn:Hc.
    + assert (∃ b act1, scan_child cfg i c (ts, ps, act)
                        = (ts ++ [t], ps ++ [set_class b p], act1))
        as (b & act1 & ->).
      { rewrite (scan_child_pair _ _ _ _ _ _ t p Hc).
        repeat case_match; eauto. }
      destruct (IH (i + 1)%Z (ts ++ [t]) (ps ++ [set_class b p]) act1)
        as (ps2 & act' & -> & Hps).
      exists (set_class b p :: ps2), act'. cbn.
      rewrite <- !app_assoc. split; [done|]. by rewrite Hps.
    + rewrite scan_child_no_pair by done. apply IH.
Qed.

(** Where no pair is flagged, or several panels may be open, each panel
    gets the class its trigger's flag asks for and [_active] is not
    written. *)
Lemma scan_mirrors (cfg : Config) (cs : list Child) (i : Z)
    (ts : list Trigger) (ps : list Panel) (act : option Z) :
  JS.truthy (allowMultiple cfg) = true ∨ existsb flagged_expanded cs = false →
  scan cfg i cs (ts, ps, act)
  = (ts ++ (omap pair_of cs).*1, ps ++ (mirrored <$> omap pair_of cs), act).
Proof.
  revert i ts ps. induction cs as [|c cs IH]; intros i ts ps Hor.
  - cbn. by rewrite !app_nil_r.
  - cbn [scan omap list_omap].
    assert (JS.truthy (allowMultiple cfg) = true
            ∨ existsb flagged_expanded cs = false) as Hor'.
    { destruct Hor as [?|Hex]; [by left|right].
      cbn in Hex. by apply orb_false_iff in Hex as [_ ?]. }
    destruct (pair_of c) as [[t p]|] eqn:Hc.
    + rewrite (scan_child_pair _ _ _ _ _ _ t p Hc).
      assert (negb (JS.truthy (allowMultiple cfg))
              && attr_is_true (aria_expanded t) = false) as ->.
      { destruct Hor as [->|Hex]; [done|].
        cbn in Hex. apply orb_false_iff in Hex as [Hex _].
        unfold flagged_expanded in Hex. rewrite Hc in Hex.
        by rewrite Hex, andb_false_r. }
      rewrite IH by done. cbn. by rewrite <- !app_assoc.
    + rewrite scan_child_no_pair by done. by apply IH.
Qed.

(** With [allowMultiple] off, the scan gives the class to exactly one more
    panel if [_active] was still [-1] and a pair is flagged, and to none
    otherwise. *)
Lemma scan_open_count (cfg : Config) (cs : list Child) (i : Z)
    (ts : list Trigger) (ps : list Panel) (act : option Z) :
  JS.truthy (allowMultiple cfg) = false →
  (0 ≤ i)%Z →
  open_count (scan cfg i cs (ts, ps, act)).1.2
  = open_count ps
    + (if bool_decide (act = Some (-1)%Z) && existsb flagged_expanded cs
       then 1 else 0).
Proof.
  intros Hm. revert i ts ps act.
  induction cs as [|c cs IH]; intros i ts ps act Hi.
  - cbn [scan existsb fst snd]. rewrite andb_false_r. lia.
  - cbn [scan existsb]. unfold flagged_expanded at 1.
    destruct (pair_of c) as [[t p]|] eqn:Hc.
    + rewrite (scan_child_pair _ _ _ _ _ _ t p Hc), Hm. cbn [negb andb].
      destruct (attr_is_true (aria_expanded t)).
      * destruct (bool_decide_reflect (act = Some (-1)%Z)) as [->|Hact];
          cbn [negb andb orb].
        -- rewrite IH by lia. rewrite open_count_app.
           rewrite bool_decide_eq_false_2 by (intros [= ?]; lia).
           cbn. unfold open_count. cbn. lia.
        -- rewrite IH by lia. rewrite open_count_app.
           rewrite bool_decide_eq_false_2 by done.
           cbn. unfold open_count. cbn. lia.
      * rewrite IH by lia. rewrite open_count_app. cbn [orb].
        unfold open_count at 2. cbn. lia.
    + rewrite scan_child_no_pair by done. cbn [orb]. apply IH. lia.
Qed.

Lemma scan_active_minus_one (cfg : Config) (cs : list Child) (i : Z)
    (ts : list Trigger) (ps : list Panel) :
  JS.truthy (allowMultiple cfg) = false →
  (0 ≤ i)%Z →
  bool_decide ((scan cfg i cs (ts, ps, Some (-1)%Z)).2 = Some (-1)%Z)
  = negb (existsb flagged_expanded cs).
Proof.
  intros Hm Hi. destruct (existsb flagged_expanded cs) eqn:Hex; cbn.
  - apply bool_decide_eq_false_2. by apply scan_found.
  - apply bool_decide_eq_true_2. by apply scan_not_found.
Qed.

(** X7. The constructor keeps exactly the valid pairs, in order, in two
    arrays of the same length; of a panel it decides the class only; it
    never writes [aria-disabled]; and when [allowToggle] is on it writes no
    trigger attribute at all (a flag it overrules stays in the markup). *)
Theorem constructor_keeps_pairs (root : Root) (options : Options) :
  let s := new_Accordion root options in
  let pairs := omap pair_of (children root) in
  length (triggers s) = length pairs
  ∧ length (panels s) = length pairs
  ∧ aria_disabled <$> triggers s = aria_disabled <$> pairs.*1
  ∧ set_class false <$> panels s = set_class false <$> pairs.*2
  ∧ (if JS.truthy (allowToggle (config s)) then triggers s = pairs.*1
     else True).
Proof.
  cbv zeta.
  destruct (new_Accordion_idle root options) as (_ & _ & _ & _ & Hcfg).
  rewrite Hcfg. clear Hcfg. unfold new_Accordion.
  destruct (scan_pairs (getConfig options (dataset root)) (children root) 0
              [] [] (if JS.truthy (allowMultiple (getConfig options
                                                    (dataset root)))
                     then None else Some (-1)%Z))
    as (ps2 & act' & -> & Hps).
  cbn [app].
  assert (length ps2 = length (omap pair_of (children root))) as Hlen.
  { apply (f_equal length) in Hps. by rewrite !length_fmap in Hps. }
  destruct (length _ =? 0)%nat.
  - cbn. rewrite length_fmap. destruct (JS.truthy _); done.
  - destruct (JS.truthy (allowToggle (getConfig options (dataset root))));
      cbn [negb andb].
    + cbn. by rewrite length_fmap.
    + destruct (bool_decide (act' = Some (-1)%Z)); cbn.
      * rewrite !length_alter, length_fmap, !fmap_alter_same by done. done.
      * by rewrite length_fmap.
Qed.

(** X8. With [allowMultiple] off at most one panel carries the expanded
    class after construction, however many triggers are flagged: exactly one
    if a pair is flagged, or if [allowToggle] is off and there is a pair at
    all, and none otherwise. *)
Theorem constructor_single_open (root : Root) (options : Options) :
  let s := new_Accordion root options in
  JS.truthy (allowMultiple (config s)) = false →
  length (expanded_panels s)
  = if existsb flagged_expanded (children root) then 1
    else if negb (JS.truthy (allowToggle (config s)))
            && negb (bool_decide (omap pair_of (children root) = []))
         then 1 else 0.
Proof.
  cbv zeta. unfold expanded_panels. rewrite expanded_from_length.
  destruct (new_Accordion_idle root options) as (_ & _ & _ & _ & Hcfg).
  rewrite Hcfg. clear Hcfg. intros Hm. unfold new_Accordion. rewrite Hm.
  pose proof (scan_open_count (getConfig options (dataset root))
                (children root) 0 [] [] (Some (-1)%Z) Hm ltac:(lia)) as Hcount.
  pose proof (scan_active_minus_one (getConfig options (dataset root))
                (children root) 0 [] [] Hm ltac:(lia)) as Hact.
  destruct (scan_pairs (getConfig options (dataset root)) (children root) 0
              [] [] (Some (-1)%Z)) as (ps2 & act' & E & Hps).
  rewrite E in Hcount, Hact |- *. cbn [fst snd app] in Hcount, Hact |- *.
  rewrite bool_decide_eq_true_2 in Hcount by done. cbn [andb] in Hcount.
  unfold open_count at 2 in Hcount. cbn in Hcount.
  assert (length ps2 = length (omap pair_of (children root))) as Hlen.
  { apply (f_equal length) in Hps. by rewrite !length_fmap in Hps. }
  destruct (Nat.eqb_spec (length (omap pair_of (children root)).*1) 0)
    as [Hz|Hnz]; rewrite length_fmap in *.
  - cbn [panels]. rewrite Hcount.
    destruct (omap pair_of (children root)) eqn:Ep; [|done].
    rewrite bool_decide_eq_true_2 by done. cbn. rewrite andb_false_r.
    by destruct (existsb _ _).
  - rewrite (bool_decide_eq_false_2 (omap pair_of (children root) = []))
      by (by destruct (omap pair_of (children root))).
    rewrite Hact.
    destruct (JS.truthy (allowToggle (getConfig options (dataset root))));
      cbn [negb andb].
    + cbn [panels]. rewrite Hcount. by destruct (existsb _ _).
    + destruct (existsb flagged_expanded (children root)); cbn [negb panels].
      * done.
      * destruct ps2 as [|p ps2]; [cbn in Hlen; lia|].
        unfold open_count in *. cbn in *.
        destruct (expanded_class p); cbn in *; lia.
Qed.

Lemma constructor_single_open_witness :
  length (expanded_panels (new_Accordion two_flagged (options_of true false)))
  = 1.
Proof.
  exact (constructor_single_open two_flagged (options_of true false) eq_refl).
Defined.

Lemma new_Accordion_multi_active (root : Root) (options : Options) :
  JS.truthy (allowMultiple (getConfig options (dataset root))) = true →
  active (new_Accordion root options) = None.
Proof.
  intros Hm. pose proof (config_multiple_needs_toggle _ _ Hm) as Htg.
  unfold new_Accordion. rewrite Hm, scan_mirrors by (by left). cbn [app].
  rewrite Htg. cbn [negb andb]. by destruct (length _ =? 0)%nat.
Qed.

(** X9. With [allowMultiple] on the constructor takes the markup as it is:
    the triggers are those of the valid pairs, every panel gets the class
    its own trigger's flag asks for, and [_active] is left undefined. *)
Theorem constructor_multi_mirrors (root : Root) (options : Options) :
  let s := new_Accordion root options in
  JS.truthy (allowMultiple (config s)) = true →
  triggers s = (omap pair_of (children root)).*1
  ∧ panels s = mirrored <$> omap pair_of (children root)
  ∧ active s = None.
Proof.
  cbv zeta.
  destruct (new_Accordion_idle root options) as (_ & _ & _ & _ & Hcfg).
  rewrite Hcfg. clear Hcfg. intros Hm.
  pose proof (config_multiple_needs_toggle _ _ Hm) as Htg.
  unfold new_Accordion. rewrite Hm, scan_mirrors by (by left). cbn [app].
  rewrite Htg. cbn [negb andb]. by destruct (length _ =? 0)%nat.
Qed.

Lemma constructor_multi_mirrors_witness :
  active (new_Accordion two_flagged (options_of true true)) = None.
Proof.
  exact (proj2 (proj2 (constructor_multi_mirrors two_flagged
                         (options_of true true) eq_refl))).
Defined.

(** X10. With [allowMultiple] off and no pair flagged expanded, [_active]
    after construction is [0] when [allowToggle] is off and there is a
    pair (that pair is then forced open: its trigger reads expanded and its
    panel gets the class), and [-1] otherwise. *)
Theorem constructor_without_flag (root : Root) (options : Options) :
  let s := new_Accordion root options in
  let pairs := omap pair_of (children root) in
  JS.truthy (allowMultiple (config s)) = false →
  existsb flagged_expanded (children root) = false →
  if negb (JS.truthy (allowToggle (config s)))
     && negb (bool_decide (pairs = []))
  then active s = Some 0%Z
       ∧ triggers s = alter (set_aria_expanded "true") 0 pairs.*1
       ∧ panels s = alter (set_class true) 0 (mirrored <$> pairs)
  else active s = Some (-1)%Z
       ∧ triggers s = pairs.*1
       ∧ panels s = mirrored <$> pairs.
Proof.
  cbv zeta.
  destruct (new_Accordion_idle root options) as (_ & _ & _ & _ & Hcfg).
  rewrite Hcfg. clear Hcfg. intros Hm Hex.
  unfold new_Accordion. rewrite Hm, scan_mirrors by (by right). cbn [app].
  destruct (omap pair_of (children root)) as [|tp pairs] eqn:Ep.
  - cbn. rewrite andb_false_r. done.
  - cbn [fmap list_fmap length Nat.eqb].
    rewrite (bool_decide_eq_false_2 (tp :: pairs = [])) by done.
    rewrite bool_decide_eq_true_2 by done. cbn [negb]. rewrite !andb_true_r.
    by destruct (JS.truthy (allowToggle (getConfig options (dataset root)))).
Qed.

Lemma constructor_without_flag_witness :
  active (new_Accordion
            {| dataset := no_data;
               children := [group_of false false 300;
                            group_of false false 300] |}
            (options_of false false)) = Some 0%Z.
Proof.
  exact (proj1 (constructor_without_flag
                  {| dataset := no_data;
                     children := [group_of false false 300;
                                  group_of false false 300] |}
                  (options_of false false) eq_refl eq_refl)).
Defined.

(** ** What runs keep *)

Lemma collapsePanel_shape (i : Z) (s : State) :
  shape (collapsePanel i s).2 = shape s.
Proof.
  unfold shape. destruct_state s. unfold_protocol.
  destruct (at_index _ i); [|done].
  destruct (at_index _ i);
    rewrite ?length_alter_at, ?fmap_alter_at_same by done; done.
Qed.

Lemma expandPanel_shape (i : Z) (s : State) :
  shape (expandPanel i s).2 = shape s.
Proof.
  unfold shape. destruct_state s. unfold_protocol.
  destruct (at_index _ i); [|done].
  destruct (at_index _ i);
    rewrite ?length_alter_at, ?fmap_alter_at_same by done; done.
Qed.

Lemma run_callback_shape (t : Timer) (s : State) :
  shape (run_callback t s) = shape s.
Proof.
  unfold shape. destruct_state s. destruct t as [d [i|i] p]; unfold_protocol;
    rewrite ?length_alter_at, ?fmap_alter_at_same by done; done.
Qed.

(** The parts of [togglePanel] in terms of the two protocols: an accepted
    request is one of three compositions. *)
Lemma togglePanel_cases (i : Z) (s : State) :
  togglePanel i s = s
  ∨ (∃ p s2, JS.truthy (allowToggle (config s)) = true
             ∧ collapsePanel i (with_isTransitioning true s) = (p, s2)
             ∧ togglePanel i s
               = match p with
                 | Some p => await [p] AfterCollapse s2
                 | None => s2
                 end)
  ∨ (∃ p s2, JS.truthy (allowToggle (config s)) = true
             ∧ expandPanel i (with_isTransitioning true s) = (p, s2)
             ∧ togglePanel i s
               = match p with
                 | Some p => await [p] (AfterExpand i) s2
                 | None => s2
                 end)
  ∨ (∃ c s2 e s3,
       JS.truthy (allowToggle (config s)) = false
       ∧ match active s with
       | Some a => collapsePanel a (with_isTransitioning true s)
       | None => (None, with_isTransitioning true s)
       end = (c, s2)
       ∧ expandPanel i s2 = (e, s3)
       ∧ togglePanel i s
         = match c, e with
           | Some p, Some q => await [p; q] (AfterSwap i) s3
           | _, _ => s3
           end).
Proof.
  unfold togglePanel.
  destruct (_ || _); [by left|].
  destruct (transitioning s); [by left|].
  destruct (_ && _); [by left|].
  destruct (at_index (triggers s) i) as [t|]; [|by left].
  destruct (_ && _); [by left|].
  change (config (with_isTransitioning true s)) with (config s).
  change (active (with_isTransitioning true s)) with (active s).
  destruct (JS.truthy (allowToggle (config s))) eqn:Hmode.
  - destruct (attr_is_true (aria_expanded t)).
    + right. left. destruct (collapsePanel i _) as [p s2]. by exists p, s2.
    + right. right. left. destruct (expandPanel i _) as [p s2].
      by exists p, s2.
  - right. right. right.
    destruct (match active s with
              | Some a => collapsePanel a (with_isTransitioning true s)
              | None => (None, with_isTransitioning true s)
              end) as [c s2].
    destruct (expandPanel i s2) as [e s3] eqn:E2. by exists c, s2, e, s3.
Qed.

Lemma shape_await (ps : list nat) (r : Resume) (s : State) :
  shape (await ps r s) = shape s.
Proof. done. Qed.

Lemma togglePanel_shape (i : Z) (s : State) :
  shape (togglePanel i s) = shape s.
Proof.
  destruct (togglePanel_cases i s)
    as [->|[(p & s2 & _ & E & ->)|[(p & s2 & _ & E & ->)
       |(c & s2 & e & s3 & _ & E1 & E2 & ->)]]]; [done|..].
  - pose proof (collapsePanel_shape i (with_isTransitioning true s)) as H.
    rewrite E in H. cbn in H. by destruct p.
  - pose proof (expandPanel_shape i (with_isTransitioning true s)) as H.
    rewrite E in H. cbn in H. by destruct p.
  - assert (shape s2 = shape s) as H2.
    { destruct (active s) as [a|]; [|by injection E1 as <- <-].
      pose proof (collapsePanel_shape a (with_isTransitioning true s)) as H.
      by rewrite E1 in H. }
    pose proof (expandPanel_shape i s2) as H3. rewrite E2 in H3. cbn in H3.
    rewrite <- H2, <- H3. by destruct c, e.
Qed.

Lemma fire_at_shape (k : nat) (s : State) : shape (fire_at k s) = shape s.
Proof.
  unfold fire_at. destruct (timers s !! k) as [t|]; [|done].
  unfold shape at 1.
  destruct (settle_fields (promise t)
    (run_callback t
       (with_clock (Nat.max (clock (with_timers (delete k) s)) (due t))
          (with_timers (delete k) s)))) as (-> & -> & _).
  fold (shape (run_callback t
    (with_clock (Nat.max (clock (with_timers (delete k) s)) (due t))
       (with_timers (delete k) s)))).
  by rewrite run_callback_shape.
Qed.

(** X11. No request and no timer ever adds or removes a trigger or a panel
    or writes [aria-disabled]: the two arrays keep their lengths and every
    trigger its disabled flag, so the indices are stable for the controller's
    lifetime. *)
Theorem run_keeps_shape (acts : list Action) (s : State) :
  aria_disabled <$> triggers (run acts s) = aria_disabled <$> triggers s
  ∧ length (triggers (run acts s)) = length (triggers s)
  ∧ length (panels (run acts s)) = length (panels s).
Proof.
  assert (shape (run acts s) = shape s) as H.
  { revert s. induction acts as [|a acts IH]; intros s; [done|].
    rewrite run_cons, IH.
    destruct a; [apply togglePanel_shape|apply fire_at_shape]. }
  unfold shape in H. injection H as Ht Hp.
  split_and!; [done| |done].
  apply (f_equal length) in Ht. by rewrite !length_fmap in Ht.
Qed.

(** ** The lock over whole runs *)

Lemma togglePanel_new_timers (i : Z) (s : State) :
  ∃ new, timers (togglePanel i s) = timers s ++ new ∧ length new ≤ 2.
Proof.
  destruct (togglePanel_cases i s)
    as [->|[(p & s2 & _ & E & ->)|[(p & s2 & _ & E & ->)
       |(c & s2 & e & s3 & _ & E1 & E2 & ->)]]].
  - exists []. split; [by rewrite app_nil_r|cbn; lia].
  - pose proof (collapsePanel_frame i (with_isTransitioning true s)) as H.
    cbn in H. rewrite E in H. cbn in H.
    destruct H as (_ & _ & _ & _ & _ & _ & _ & _ & H).
    destruct p; [destruct H as (_ & ms & H)|]; cbn; rewrite H.
    + eexists [_]. split; [done|cbn; lia].
    + exists []. split; [by rewrite app_nil_r|cbn; lia].
  - pose proof (expandPanel_frame i (with_isTransitioning true s)) as H.
    cbn in H. rewrite E in H. cbn in H.
    destruct H as (_ & _ & _ & _ & _ & _ & _ & _ & H).
    destruct p; [destruct H as (_ & ms & H)|]; cbn; rewrite H.
    + eexists [_]. split; [done|cbn; lia].
    + exists []. split; [by rewrite app_nil_r|cbn; lia].
  - assert (∃ n1, timers s2 = timers s ++ n1 ∧ length n1 ≤ 1)
      as (n1 & H2 & Hl1).
    { destruct (active s) as [a|].
      - pose proof (collapsePanel_frame a (with_isTransitioning true s)) as H.
        cbn in H. rewrite E1 in H. cbn in H.
        destruct H as (_ & _ & _ & _ & _ & _ & _ & _ & H).
        destruct c; [destruct H as (_ & ms & H)|]; rewrite H.
        + eexists [_]. split; [done|cbn; lia].
        + exists []. split; [by rewrite app_nil_r|cbn; lia].
      - injection E1 as <- <-. exists []. split; [by rewrite app_nil_r|cbn; lia]. }
    pose proof (expandPanel_frame i s2) as H. cbn in H. rewrite E2 in H.
    cbn in H. destruct H as (_ & _ & _ & _ & _ & _ & _ & _ & H).
    assert (∃ n2, timers s3 = timers s2 ++ n2 ∧ length n2 ≤ 1)
      as (n2 & H3 & Hl2).
    { destruct e; [destruct H as (_ & ms & H)|]; rewrite H.
      - eexists [_]. split; [done|cbn; lia].
      - exists []. split; [by rewrite app_nil_r|cbn; lia]. }
    exists (n1 ++ n2). split.
    + assert (timers (match c, e with
                      | Some p, Some q => await [p; q] (AfterSwap i) s3
                      | _, _ => s3
                      end) = timers s3) as -> by (by destruct c, e).
      by rewrite H3, H2, app_assoc.
    + rewrite length_app. lia.
Qed.

Lemma fire_at_timers (k : nat) (s : State) :
  timers (fire_at k s) = match timers s !! k with
                         | Some _ => delete k (timers s)
                         | None => timers s
                         end.
Proof.
  unfold fire_at. destruct (timers s !! k) as [t|]; [|done].
  destruct (settle_fields (promise t)
    (run_callback t
       (with_clock (Nat.max (clock (with_timers (delete k) s)) (due t))
          (with_timers (delete k) s)))) as (_ & _ & _ & ->).
  by destruct (run_callback_fields t
    (with_clock (Nat.max (clock (with_timers (delete k) s)) (due t))
       (with_timers (delete k) s))) as (_ & _ & _ & _ & -> & _).
Qed.

(** X12. In every state that can be reached from a freshly built
    controller by requests and timers, at most one call of [togglePanel] is
    suspended and at most two timers are pending; a pending timer means the
    lock is held, and a suspended call always has a timer left that will
    resume it. *)
Theorem reachable_states_locked (root : Root) (options : Options)
    (acts : list Action) :
  let s := run acts (new_Accordion root options) in
  length (frames s) ≤ 1
  ∧ length (timers s) ≤ 2
  ∧ (timers s ≠ [] → transitioning s = true)
  ∧ (frames s ≠ [] → timers s ≠ []).
Proof.
  cbv zeta.
  assert (∀ s, lock_inv s ∧ length (timers s) ≤ 2 →
               lock_inv (run acts s) ∧ length (timers (run acts s)) ≤ 2) as H.
  { induction acts as [|a acts IH]; intros s [Hinv Hlen]; [done|].
    rewrite run_cons. apply IH. destruct a as [i|k]; cbn [step].
    - split; [by apply togglePanel_lock_inv|].
      destruct (timers s) as [|tm tms] eqn:Etm.
      + destruct (togglePanel_new_timers i s) as (new & -> & Hn).
        by rewrite Etm.
      + rewrite togglePanel_locked_out, Etm; [done|].
        apply lock_inv_pending; [done|by rewrite Etm].
    - split; [by apply fire_at_lock_inv|].
      rewrite fire_at_timers. destruct (timers s !! k) eqn:Ek; [|done].
      rewrite length_delete by eauto. lia. }
  destruct (new_Accordion_idle root options) as (Htm & Hfr & _).
  destruct (H (new_Accordion root options)) as [Hinv Hlen].
  { split; [apply new_Accordion_lock_inv|]. rewrite Htm. cbn. lia. }
  split_and!; [|done| |].
  - destruct Hinv as [[-> _]|(r & -> & _)]; cbn; lia.
  - by apply lock_inv_pending.
  - destruct Hinv as [[-> _]|(r & _ & ? & _)]; done.
Qed.

Lemma reachable_states_locked_witness :
  let s := run [Toggle 1; Toggle 2; Fire 0]
               (new_Accordion three_panels (options_of false false)) in
  timers s ≠ [] ∧ transitioning s = true.
Proof.
  assert (timers (run [Toggle 1; Toggle 2; Fire 0]
                    (new_Accordion three_panels (options_of false false)))
          ≠ []) as H by (vm_compute; discriminate).
  split; [exact H|].
  exact (proj1 (proj2 (proj2 (reachable_states_locked three_panels
                                (options_of false false)
                                [Toggle 1; Toggle 2; Fire 0]))) H).
Defined.

Lemma collapsePanel_throws (a : Z) (s : State) :
  at_index (triggers s) a = None → (collapsePanel a s).1 = None.
Proof.
  intros H. destruct_state s. unfold_protocol. cbn in H. by rewrite H.
Qed.

Lemma stuck_step (a : Action) (s : State) : stuck s → stuck (step a s).
Proof.
  intros [Hl Hf]. destruct a as [i|k]; cbn [step].
  - by rewrite togglePanel_locked_out.
  - unfold fire_at. destruct (timers s !! k) as [t|]; [|done].
    abstract_callback s1 Hl' Htm' Hf'.
    rewrite settle_no_frames by congruence.
    split; [|done]. unfold transitioning in *. cbn. by rewrite Hl'.
Qed.

(** X13. In always-open mode a request that finds [_active] pointing at no
    trigger (undefined, negative or past the end) still expands the
    requested panel, but [_collapsePanel] throws and the lock is never
    released: from then on every request is ignored, whatever timers fire
    in between. *)
Theorem swap_on_bad_active_locks_forever (s : State) (i : Z) :
  JS.truthy (allowToggle (config s)) = false →
  frames s = [] →
  match active s with
  | Some a => at_index (triggers s) a = None
  | None => True
  end →
  accepts i s = true →
  ∀ acts,
    stuck (run acts (togglePanel i s))
    ∧ ∀ k, togglePanel k (run acts (togglePanel i s))
           = run acts (togglePanel i s).
Proof.
  intros Hcfg Hfr Hbad Hacc.
  assert (stuck (togglePanel i s)) as Hstuck.
  { split; [by apply togglePanel_accepted_locks|].
    apply accepts_true in Hacc as (H1 & H2 & H3 & t & Ht & H4).
    unfold togglePanel. rewrite H1, H2, H3, Ht, H4.
    change (config (with_isTransitioning true s)) with (config s).
    change (active (with_isTransitioning true s)) with (active s).
    rewrite Hcfg.
    assert (∃ s2, match active s with
                  | Some a => collapsePanel a (with_isTransitioning true s)
                  | None => (None, with_isTransitioning true s)
                  end = (None, s2) ∧ frames s2 = []) as (s2 & -> & Hf2).
    { destruct (active s) as [a|]; [|by eexists].
      pose proof (collapsePanel_throws a (with_isTransitioning true s) Hbad)
        as Hnone.
      pose proof (collapsePanel_frame a (with_isTransitioning true s)) as H.
      cbn in H. destruct (collapsePanel a _) as [c s2]. cbn in Hnone, H.
      subst c. exists s2. split; [done|].
      by destruct H as (_ & _ & _ & -> & _). }
    pose proof (expandPanel_frame i s2) as H. cbn in H.
    destruct (expandPanel i s2) as [e s3]. cbn in H.
    destruct H as (_ & _ & _ & Hf3 & _). by rewrite Hf3. }
  intros acts.
  assert (stuck (run acts (togglePanel i s))) as H.
  { generalize dependent (togglePanel i s). clear.
    induction acts as [|a acts IH]; intros s Hs; [done|].
    rewrite run_cons. apply IH. by apply stuck_step. }
  split; [done|]. intros k. apply togglePanel_locked_out. apply H.
Qed.

Lemma swap_on_bad_active_locks_forever_witness :
  let s := new_Accordion skipped_first (options_of false false) in
  togglePanel 0 (run [Fire 0; Toggle 0] (togglePanel 0 s))
  = run [Fire 0; Toggle 0] (togglePanel 0 s).
Proof.
  exact (proj2 (swap_on_bad_active_locks_forever
                  (new_Accordion skipped_first (options_of false false)) 0
                  eq_refl eq_refl eq_refl eq_refl [Fire 0; Toggle 0]) 0%Z).
Defined.

(** ** Inline heights *)

Lemma collapsePanel_thrown_panels (i : Z) (s : State) :
  (collapsePanel i s).1 = None → panels (collapsePanel i s).2 = panels s.
Proof.
  destruct_state s. unfold_protocol.
  destruct (at_index _ i); [|done]. by destruct (at_index _ i).
Qed.

Lemma expandPanel_thrown_panels (i : Z) (s : State) :
  (expandPanel i s).1 = None → panels (expandPanel i s).2 = panels s.
Proof.
  destruct_state s. unfold_protocol.
  destruct (at_index _ i); [|done]. by destruct (at_index _ i).
Qed.

Lemma collapsePanel_heights (i : Z) (s : State) :
  heights_owned s → heights_owned (collapsePanel i s).2.
Proof.
  intros Hs k p Hk Hh.
  pose proof (collapsePanel_frame i s) as F. cbn in F.
  destruct F as (_ & _ & _ & _ & _ & _ & _ & _ & F).
  destruct (decide (i = k)) as [<-|Hne].
  - destruct (collapsePanel i s).1 as [q|] eqn:E.
    + destruct F as (_ & ms & ->).
      eexists; split;
        [apply elem_of_app; right; by apply list_elem_of_singleton|done].
    + rewrite F. rewrite collapsePanel_thrown_panels in Hk by done. eauto.
  - destruct (collapsePanel_other i k s Hne) as [_ Ep]. rewrite Ep in Hk.
    destruct (Hs k p Hk Hh) as (tm & Hin & Ht). exists tm. split; [|done].
    destruct (collapsePanel i s).1; [destruct F as (_ & ms & ->)|by rewrite F].
    apply elem_of_app. by left.
Qed.

Lemma expandPanel_heights (i : Z) (s : State) :
  heights_owned s → heights_owned (expandPanel i s).2.
Proof.
  intros Hs k p Hk Hh.
  pose proof (expandPanel_frame i s) as F. cbn in F.
  destruct F as (_ & _ & _ & _ & _ & _ & _ & _ & F).
  destruct (decide (i = k)) as [<-|Hne].
  - destruct (expandPanel i s).1 as [q|] eqn:E.
    + destruct F as (_ & ms & ->).
      eexists; split;
        [apply elem_of_app; right; by apply list_elem_of_singleton|done].
    + rewrite F. rewrite expandPanel_thrown_panels in Hk by done. eauto.
  - destruct (expandPanel_other i k s Hne) as [_ Ep]. rewrite Ep in Hk.
    destruct (Hs k p Hk Hh) as (tm & Hin & Ht). exists tm. split; [|done].
    destruct (expandPanel i s).1; [destruct F as (_ & ms & ->)|by rewrite F].
    apply elem_of_app. by left.
Qed.

Lemma togglePanel_heights (i : Z) (s : State) :
  heights_owned s → heights_owned (togglePanel i s).
Proof.
  intros Hs.
  assert (heights_owned (with_isTransitioning true s)) as Hs1 by done.
  destruct (togglePanel_cases i s)
    as [->|[(p & s2 & _ & E & ->)|[(p & s2 & _ & E & ->)
       |(c & s2 & e & s3 & _ & E1 & E2 & ->)]]]; [done|..].
  - pose proof (collapsePanel_heights i _ Hs1) as H. rewrite E in H.
    by destruct p.
  - pose proof (expandPanel_heights i _ Hs1) as H. rewrite E in H.
    by destruct p.
  - assert (heights_owned s2) as H2.
    { destruct (active s) as [a|]; [|by injection E1 as <- <-].
      pose proof (collapsePanel_heights a _ Hs1) as H. by rewrite E1 in H. }
    pose proof (expandPanel_heights i _ H2) as H3. rewrite E2 in H3.
    by destruct c, e.
Qed.

Lemma run_callback_clears (t : Timer) (s : State) (p : Panel) :
  at_index (panels (run_callback t s)) (target (callback t)) = Some p →
  style_height p = HUnset.
Proof.
  destruct_state s. destruct t as [d [i|i] q]; unfold_protocol; cbn [target];
    rewrite !at_index_alter_at_eq;
    destruct (at_index ps i); cbn; by intros [= <-].
Qed.

Lemma fire_at_heights (n : nat) (s : State) :
  heights_owned s → heights_owned (fire_at n s).
Proof.
  intros Hs k p. rewrite fire_at_timers. unfold fire_at.
  destruct (timers s !! n) as [t|] eqn:Hn; [|apply Hs].
  destruct (settle_fields (promise t)
    (run_callback t
       (with_clock (Nat.max (clock (with_timers (delete n) s)) (due t))
          (with_timers (delete n) s)))) as (_ & -> & _).
  intros Hk Hh. destruct (decide (target (callback t) = k)) as [<-|Hne].
  - by apply run_callback_clears in Hk.
  - rewrite run_callback_other in Hk by done. cbn in Hk.
    destruct (Hs k p Hk Hh) as (tm & Hin & Ht). exists tm. split; [|done].
    apply list_elem_of_lookup in Hin as [m Hm].
    assert (m ≠ n) as Hmn by (intros ->; congruence).
    apply list_elem_of_lookup.
    destruct (decide (m < n)) as [Hlt|Hge].
    + exists m. by rewrite list_lookup_delete_lt.
    + exists (pred m). rewrite list_lookup_delete_ge by lia.
      by replace (S (pred m)) with m by lia.
Qed.

(** X14. No inline height is left behind: if every panel starts without a
    height override, then in every state reached by requests and timers in
    which no timer is pending, every panel is again without one. *)
Theorem idle_panels_have_no_height (s : State) (acts : list Action) :
  Forall (λ p, style_height p = HUnset) (panels s) →
  timers (run acts s) = [] →
  Forall (λ p, style_height p = HUnset) (panels (run acts s)).
Proof.
  intros Hall Hidle.
  assert (heights_owned s) as Hs.
  { intros k p Hk Hh. apply at_index_Some in Hk as [_ Hk].
    rewrite Forall_lookup in Hall. by specialize (Hall _ _ Hk). }
  assert (heights_owned (run acts s)) as Hr.
  { clear Hall Hidle. revert s Hs.
    induction acts as [|a acts IH]; intros s Hs; [done|].
    rewrite run_cons. apply IH. destruct a; cbn [step];
      [by apply togglePanel_heights|by apply fire_at_heights]. }
  apply Forall_lookup. intros n p Hn.
  destruct (decide (style_height p = HUnset)) as [|Hne]; [done|].
  destruct (Hr (Z.of_nat n) p) as (tm & Hin & _); [|done|].
  - unfold at_index. destruct (Z.ltb_spec (Z.of_nat n) 0); [lia|].
    by rewrite Nat2Z.id.
  - rewrite Hidle in Hin. by apply elem_of_nil in Hin.
Qed.

Lemma idle_panels_have_no_height_witness :
  Forall (λ p, style_height p = HUnset)
    (panels (run [Toggle 2; Fire 1; Toggle 0; Fire 0]
               (new_Accordion three_panels (options_of false false)))).
Proof.
  apply idle_panels_have_no_height; [|reflexivity].
  repeat constructor.
Defined.

(** ** Several panels open *)

Lemma filter_Forall {A} (P : A → Prop) (f : A → bool) (l : list A) :
  Forall P l → Forall P (List.filter f l).
Proof.
  induction 1 as [|x l Hx Hl IH]; cbn; [done|].
  destruct (f x); [by constructor|done].
Qed.

(** What a resumed call in toggle mode with several panels allowed does:
    it releases the lock and nothing else. *)
Lemma settle_keeps_active (p : nat) (s : State) :
  JS.truthy (allowMultiple (config s)) = true →
  Forall (λ f, ∀ i, resume f ≠ AfterSwap i) (frames s) →
  active (settle p s) = active s
  ∧ Forall (λ f, ∀ i, resume f ≠ AfterSwap i) (frames (settle p s)).
Proof.
  intros Hm Hfr. unfold settle.
  assert (Forall (λ f, ∀ i, resume f ≠ AfterSwap i)
            (map (without_promise p) (frames s))) as Hmap.
  { change (map (without_promise p) (frames s))
      with (without_promise p <$> frames s).
    apply Forall_fmap. by eapply Forall_impl. }
  pose proof (filter_Forall _ is_ready _ Hmap) as Hready.
  pose proof (filter_Forall _ (λ f, negb (is_ready f)) _ Hmap) as Hwait.
  revert Hready Hwait.
  generalize (List.filter is_ready (map (without_promise p) (frames s))).
  generalize (List.filter (λ f, negb (is_ready f))
                (map (without_promise p) (frames s))).
  intros ws rs Hrs Hws.
  assert (active s = active (with_frames ws s)) as -> by done.
  assert (Forall (λ f, ∀ i, resume f ≠ AfterSwap i)
            (frames (with_frames ws s))) as Hfr' by done.
  assert (JS.truthy (allowMultiple (config (with_frames ws s))) = true)
    as Hm' by done.
  revert Hfr' Hm'. generalize (with_frames ws s). clear - Hrs.
  induction Hrs as [|f rs Hf Hrs IH]; intros s Hfr Hm; [done|].
  cbn [foldl].
  destruct (run_resume_fields (resume f) s) as (Ec & _ & _ & _ & _ & _ & Ef).
  destruct (IH (run_resume (resume f) s)) as [-> ?];
    [by rewrite Ef|by rewrite Ec|].
  split; [|done].
  destruct_state s. cbn in Hm. destruct (resume f) eqn:Er;
    [| |by specialize (Hf i)]; unfold_protocol; by rewrite Hm.
Qed.

(** X15. When several panels may be open the controller never tracks an
    active panel: [_active] is undefined after construction and after every
    run of requests and timers. *)
Theorem multi_mode_never_tracks (root : Root) (options : Options)
    (acts : list Action) :
  JS.truthy (allowMultiple (config (new_Accordion root options))) = true →
  active (run acts (new_Accordion root options)) = None.
Proof.
  intros Hm.
  destruct (new_Accordion_idle root options) as (_ & Hfr & _ & _ & Hcfg).
  assert (active (new_Accordion root options) = None) as Hact
    by (apply new_Accordion_multi_active; by rewrite <- Hcfg).
  assert (JS.truthy (allowToggle (config (new_Accordion root options)))
          = true) as Htg.
  { rewrite Hcfg in Hm |- *. by apply config_multiple_needs_toggle. }
  rewrite <- Hact.
  assert (Forall (λ f, ∀ i, resume f ≠ AfterSwap i)
            (frames (new_Accordion root options))) as Hok
    by (rewrite Hfr; constructor).
  clear Hact Hfr Hcfg. revert Hm Htg Hok.
  generalize (new_Accordion root options). intros s.
  revert s. induction acts as [|a acts IH]; intros s Hm Htg Hok; [done|].
  rewrite run_cons.
  assert (active (step a s) = active s
          ∧ config (step a s) = config s
          ∧ Forall (λ f, ∀ i, resume f ≠ AfterSwap i) (frames (step a s)))
    as (Ea & Ec & Hok').
  { destruct a as [i|k]; cbn [step].
    - rewrite togglePanel_config. split; [|split; [done|]].
      + destruct (togglePanel_cases i s)
          as [->|[(p & s2 & _ & E & ->)|[(p & s2 & _ & E & ->)
             |(c & s2 & e & s3 & Hf & _)]]]; [done| | |congruence].
        * pose proof (collapsePanel_frame i (with_isTransitioning true s))
            as F. cbn in F. rewrite E in F. cbn in F.
          destruct F as (_ & Ea & _). destruct p; exact Ea.
        * pose proof (expandPanel_frame i (with_isTransitioning true s))
            as F. cbn in F. rewrite E in F. cbn in F.
          destruct F as (_ & Ea & _). destruct p; exact Ea.
      + destruct (togglePanel_cases i s)
          as [->|[(p & s2 & _ & E & ->)|[(p & s2 & _ & E & ->)
             |(c & s2 & e & s3 & Hf & _)]]]; [done| | |congruence].
        * pose proof (collapsePanel_frame i (with_isTransitioning true s))
            as F. cbn in F. rewrite E in F. cbn in F.
          destruct F as (_ & _ & _ & Ef & _).
          destruct p; cbn; rewrite Ef; [|done].
          apply Forall_app. split; [done|]. by apply Forall_singleton.
        * pose proof (expandPanel_frame i (with_isTransitioning true s))
            as F. cbn in F. rewrite E in F. cbn in F.
          destruct F as (_ & _ & _ & Ef & _).
          destruct p; cbn; rewrite Ef; [|done].
          apply Forall_app. split; [done|]. by apply Forall_singleton.
    - rewrite fire_at_config. split; [|split; [done|]];
        unfold fire_at; (destruct (timers s !! k) as [t|]; [|done]);
        pose proof (run_callback_fields t
          (with_clock (Nat.max (clock (with_timers (delete k) s)) (due t))
             (with_timers (delete k) s))) as (Ec' & _ & Ea' & _ & _ & Ef' & _);
        (edestruct settle_keeps_active as [E1 E2];
         [|
          |first [rewrite E1; exact Ea' | exact E2]]);
        [by rewrite Ec'|by rewrite Ef'|by rewrite Ec'|by rewrite Ef']. }
  rewrite <- Ea. apply IH; [by rewrite Ec|by rewrite Ec|done].
Qed.

Lemma multi_mode_never_tracks_witness :
  active (run [Toggle 1; Fire 0; Toggle 0; Toggle 2]
            (new_Accordion three_panels (options_of true true))) = None.
Proof.
  exact (multi_mode_never_tracks three_panels (options_of true true)
           [Toggle 1; Fire 0; Toggle 0; Toggle 2] eq_refl).
Defined.

(** ** Completed requests in toggle mode *)

Lemma at_index_alter_at {A} (f : A → A) (l : list A) (i k : Z) :
  at_index (alter_at f i l) k
  = if bool_decide (i = k) then f <$> at_index l k else at_index l k.
Proof.
  case_bool_decide as H.
  - subst. apply at_index_alter_at_eq.
  - by apply at_index_alter_at_ne.
Qed.

Lemma at_index_eq {A} (l1 l2 : list A) :
  length l1 = length l2 →
  (∀ k, at_index l1 k = at_index l2 k) → l1 = l2.
Proof.
  intros Hlen H. apply list_eq. intros n. specialize (H (Z.of_nat n)).
  unfold at_index in H. destruct (Z.ltb_spec (Z.of_nat n) 0); [lia|].
  by rewrite Nat2Z.id in H.
Qed.

Lemma alter_at_alter_at {A} (f g : A → A) (i : Z) (l : list A) :
  alter_at f i (alter_at g i l) = alter_at (f ∘ g) i l.
Proof.
  apply at_index_eq; [by rewrite !length_alter_at|].
  intros k. rewrite !at_index_alter_at. case_bool_decide; [|done].
  by destruct (at_index l k).
Qed.

Lemma alter_at_ext {A} (f g : A → A) (i : Z) (l : list A) :
  (∀ x, f x = g x) → alter_at f i l = alter_at g i l.
Proof.
  intros Hfg. apply at_index_eq; [by rewrite !length_alter_at|].
  intros k. rewrite !at_index_alter_at. case_bool_decide; [|done].
  destruct (at_index l k); cbn; by rewrite ?Hfg.
Qed.

Lemma alter_at_same {A} (f : A → A) (i : Z) (l : list A) (x : A) :
  at_index l i = Some x → f x = x → alter_at f i l = l.
Proof.
  intros Hx Hf. apply at_index_eq; [by rewrite length_alter_at|].
  intros k. rewrite at_index_alter_at. case_bool_decide; [|done].
  subst. rewrite Hx. cbn. by rewrite Hf.
Qed.

Lemma in_range_of_index {A} (l : list A) (i : Z) (x : A) :
  at_index l i = Some x →
  (i <? 0)%Z || (Z.of_nat (length l) <=? i)%Z = false.
Proof.
  intros H. apply at_index_Some in H as [Hi Hl]. apply lookup_lt_Some in Hl.
  apply orb_false_iff. split; [apply Z.ltb_ge; lia|apply Z.leb_gt; lia].
Qed.

Lemma togglePanel_expand (s : State) (i : Z) (t : Trigger) (p : Panel) :
  JS.truthy (allowToggle (config s)) = true →
  transitioning s = false →
  at_index (triggers s) i = Some t →
  at_index (panels s) i = Some p →
  attr_is_true (aria_expanded t) = false →
  togglePanel i s =
  {| config := config s;
     triggers := alter_at (set_aria_expanded "true") i (triggers s);
     panels := alter_at (set_height (HPx (rect_height p))) i
                 (alter_at (set_height HZero) i
                    (alter_at (set_class true) i (panels s)));
     active := active s;
     isTransitioning := Some true;
     trace := trace s ++ expand_ops i p;
     timers := timers s ++
               [{| due := clock s + transition_ms p;
                   callback := ExpandDone i;
                   promise := next_promise s |}];
     frames := frames s ++
               [{| awaiting := [next_promise s];
                   resume := AfterExpand i |}];
     next_promise := S (next_promise s);
     clock := clock s |}.
Proof.
  intros Hcfg Hidle Ht Hp Hexp.
  pose proof (in_range_of_index _ _ _ Hp) as Hrange.
  unfold togglePanel. rewrite Hrange, Hidle, Hcfg, Ht, Hexp.
  cbn [negb andb].
  destruct_state s.
  cbn [config active triggers panels with_isTransitioning] in *.
  rewrite Hcfg. unfold_protocol. rewrite Ht, Hp.
  unfold expand_ops. rewrite <- !app_assoc. reflexivity.
Qed.

(** The state after an expanding request has run to completion. *)
Lemma expand_run_state (s : State) (i : Z) (t : Trigger) (p : Panel) :
  JS.truthy (allowToggle (config s)) = true →
  transitioning s = false →
  timers s = [] →
  frames s = [] →
  at_index (triggers s) i = Some t →
  at_index (panels s) i = Some p →
  attr_is_true (aria_expanded t) = false →
  run_to_idle (togglePanel i s) =
  {| config := config s;
     triggers := alter_at (set_aria_expanded "true") i (triggers s);
     panels := alter_at (set_height HUnset) i
                 (alter_at (set_height (HPx (rect_height p))) i
                    (alter_at (set_height HZero) i
                       (alter_at (set_class true) i (panels s))));
     active := if JS.truthy (allowMultiple (config s)) then active s
               else Some i;
     isTransitioning := Some false;
     trace := trace s ++ expand_ops i p
              ++ [SetStyleHeight i HUnset; DispatchEvent EXPAND i;
                  Resolve (next_promise s)];
     timers := [];
     frames := [];
     next_promise := S (next_promise s);
     clock := Nat.max (clock s) (clock s + transition_ms p) |}.
Proof.
  intros Hcfg Hidle Htm Hfr Ht Hp Hexp.
  rewrite (togglePanel_expand s i t p) by done.
  rewrite Htm, Hfr. cbn [app].
  destruct_state s. cbn [config triggers panels active isTransitioning trace
    timers frames next_promise clock] in *.
  unfold run_to_idle. cbn [timers length]. unfold Nat.iter. cbn [nat_rect].
  unfold run_next. cbn [timers earliest earliest_from fst].
  destruct (JS.truthy (allowMultiple cfg)) eqn:Hm; fire;
    rewrite <- !app_assoc; reflexivity.
Qed.

(** The state after a collapsing request has run to completion. *)
Lemma collapse_run_state (s : State) (i : Z) (t : Trigger) (p : Panel) :
  JS.truthy (allowToggle (config s)) = true →
  transitioning s = false →
  timers s = [] →
  frames s = [] →
  at_index (triggers s) i = Some t →
  at_index (panels s) i = Some p →
  attr_is_true (aria_expanded t) = true →
  attr_is_true (aria_disabled t) = false →
  run_to_idle (togglePanel i s) =
  {| config := config s;
     triggers := alter_at (set_aria_expanded "false") i (triggers s);
     panels := alter_at (set_class false) i
                 (alter_at (set_height HUnset) i
                    (alter_at (set_height HZero) i
                       (alter_at (set_height (HPx (rect_height p))) i
                          (panels s))));
     active := if JS.truthy (allowMultiple (config s)) then active s
               else Some (-1)%Z;
     isTransitioning := Some false;
     trace := trace s ++ collapse_ops i p
              ++ [SetStyleHeight i HUnset; ClassRemove i;
                  DispatchEvent COLLAPSE i; Resolve (next_promise s)];
     timers := [];
     frames := [];
     next_promise := S (next_promise s);
     clock := Nat.max (clock s) (clock s + transition_ms p) |}.
Proof.
  intros Hcfg Hidle Htm Hfr Ht Hp Hexp Hdis.
  rewrite (togglePanel_collapse s i t p) by done.
  rewrite Htm, Hfr. cbn [app].
  destruct_state s. cbn [config triggers panels active isTransitioning trace
    timers frames next_promise clock] in *.
  unfold run_to_idle. cbn [timers length]. unfold Nat.iter. cbn [nat_rect].
  unfold run_next. cbn [timers earliest earliest_from fst].
  destruct (JS.truthy (allowMultiple cfg)) eqn:Hm; fire;
    rewrite <- !app_assoc; reflexivity.
Qed.

(** X16. With [allowToggle] on, a request for a panel whose trigger does
    not read expanded, run to completion from rest, expands that panel and
    does nothing else: the notifications are before-expand and expand for
    it, its trigger reads expanded, it carries the class with no height
    override, no other trigger or panel changes (a panel that was open stays
    open), and [_active] becomes its index unless several panels may be
    open. *)
Theorem toggle_mode_expands_alone (s : State) (i : Z) (t : Trigger)
    (p : Panel) :
  JS.truthy (allowToggle (config s)) = true →
  transitioning s = false →
  timers s = [] →
  frames s = [] →
  at_index (triggers s) i = Some t →
  at_index (panels s) i = Some p →
  attr_is_true (aria_expanded t) = false →
  let s' := run_to_idle (togglePanel i s) in
  events_of (since s s') = [(BEFORE_EXPAND, i); (EXPAND, i)]
  ∧ triggers s' = alter_at (set_aria_expanded "true") i (triggers s)
  ∧ panels s'
    = alter_at (λ q, set_height HUnset (set_class true q)) i (panels s)
  ∧ active s' = (if JS.truthy (allowMultiple (config s)) then active s
                 else Some i)
  ∧ isTransitioning s' = Some false
  ∧ timers s' = [] ∧ frames s' = [].
Proof.
  intros Hcfg Hidle Htm Hfr Ht Hp Hexp. cbv zeta.
  rewrite (expand_run_state s i t p) by done.
  unfold since. cbn [trace triggers panels active isTransitioning timers
    frames]. rewrite drop_app_length.
  split_and!; try done.
  rewrite !alter_at_alter_at. by apply alter_at_ext.
Qed.

Lemma toggle_mode_expands_alone_witness :
  let s := new_Accordion three_panels (options_of true true) in
  events_of (since s (run_to_idle (togglePanel 2 s)))
  = [(BEFORE_EXPAND, 2%Z); (EXPAND, 2%Z)].
Proof.
  exact (proj1 (toggle_mode_expands_alone
                  (new_Accordion three_panels (options_of true true)) 2
                  (trigger_of false false) (panel_of 200)
                  eq_refl eq_refl eq_refl eq_refl eq_refl eq_refl eq_refl)).
Defined.

(** X17. With [allowToggle] on, a request for a panel whose trigger reads
    expanded and is not disabled, run to completion from rest, collapses
    that panel and does nothing else: the notifications are before-collapse
    and collapse for it, its trigger reads collapsed, it loses the class and
    keeps no height override, no other trigger or panel changes, and
    [_active] becomes [-1] unless several panels may be open, whichever
    panel it pointed at. *)
Theorem toggle_mode_collapses_alone (s : State) (i : Z) (t : Trigger)
    (p : Panel) :
  JS.truthy (allowToggle (config s)) = true →
  transitioning s = false →
  timers s = [] →
  frames s = [] →
  at_index (triggers s) i = Some t →
  at_index (panels s) i = Some p →
  attr_is_true (aria_expanded t) = true →
  attr_is_true (aria_disabled t) = false →
  let s' := run_to_idle (togglePanel i s) in
  events_of (since s s') = [(BEFORE_COLLAPSE, i); (COLLAPSE, i)]
  ∧ triggers s' = alter_at (set_aria_expanded "false") i (triggers s)
  ∧ panels s'
    = alter_at (λ q, set_height HUnset (set_class false q)) i (panels s)
  ∧ active s' = (if JS.truthy (allowMultiple (config s)) then active s
                 else Some (-1)%Z)
  ∧ isTransitioning s' = Some false
  ∧ timers s' = [] ∧ frames s' = [].
Proof.
  intros Hcfg Hidle Htm Hfr Ht Hp Hexp Hdis. cbv zeta.
  rewrite (collapse_run_state s i t p) by done.
  unfold since. cbn [trace triggers panels active isTransitioning timers
    frames]. rewrite drop_app_length.
  split_and!; try done.
  rewrite !alter_at_alter_at. by apply alter_at_ext.
Qed.

Lemma toggle_mode_collapses_alone_witness :
  let s := new_Accordion three_panels (options_of true false) in
  active (run_to_idle (togglePanel 0 s)) = Some (-1)%Z.
Proof.
  exact (proj1 (proj2 (proj2 (proj2 (toggle_mode_collapses_alone
                  (new_Accordion three_panels (options_of true false)) 0
                  (trigger_of true false) (set_class true (panel_of 300))
                  eq_refl eq_refl eq_refl eq_refl eq_refl eq_refl eq_refl
                  eq_refl))))).
Defined.

(** X18. Opening a collapsed, enabled panel and closing it again (each
    request run to completion, [allowToggle] on) gives the four
    notifications in order and puts the page back: every panel is as it was
    and every trigger reads as before, the only trace being the attribute
    value ["false"] written on the trigger. *)
Theorem expand_then_collapse_restores (s : State) (i : Z) (t : Trigger)
    (p : Panel) :
  JS.truthy (allowToggle (config s)) = true →
  transitioning s = false →
  timers s = [] →
  frames s = [] →
  at_index (triggers s) i = Some t →
  at_index (panels s) i = Some p →
  attr_is_true (aria_expanded t) = false →
  attr_is_true (aria_disabled t) = false →
  expanded_class p = false →
  style_height p = HUnset →
  let s'' := run_to_idle (togglePanel i (run_to_idle (togglePanel i s))) in
  events_of (since s s'')
  = [(BEFORE_EXPAND, i); (EXPAND, i); (BEFORE_COLLAPSE, i); (COLLAPSE, i)]
  ∧ panels s'' = panels s
  ∧ triggers s'' = alter_at (set_aria_expanded "false") i (triggers s)
  ∧ (attr_is_true ∘ aria_expanded) <$> triggers s''
    = (attr_is_true ∘ aria_expanded) <$> triggers s
  ∧ isTransitioning s'' = Some false
  ∧ timers s'' = [] ∧ frames s'' = [].
Proof.
  intros Hcfg Hidle Htm Hfr Ht Hp Hexp Hdis Hcl Hh. cbv zeta.
  rewrite (expand_run_state s i t p) by done.
  set (p1 := set_height HUnset
               (set_height (HPx (rect_height p))
                  (set_height HZero (set_class true p)))).
  rewrite (collapse_run_state _ i (set_aria_expanded "true" t) p1).
  - unfold since. cbn [trace triggers panels active isTransitioning timers
      frames config next_promise].
    rewrite <- !app_assoc, drop_app_length.
    split_and!; try done.
    + rewrite !alter_at_alter_at. eapply alter_at_same; [done|].
      destruct p. cbn in *. by subst.
    + rewrite alter_at_alter_at. by apply alter_at_ext.
    + rewrite alter_at_alter_at.
      apply list_eq. intros n. rewrite !list_lookup_fmap.
      assert (∀ k, (attr_is_true ∘ aria_expanded) <$>
                     at_index (alter_at (set_aria_expanded "false"
                                         ∘ set_aria_expanded "true") i
                                 (triggers s)) k
                   = (attr_is_true ∘ aria_expanded) <$>
                       at_index (triggers s) k) as H.
      { intros k. rewrite at_index_alter_at. case_bool_decide; [|done].
        subst. rewrite Ht. cbn. by rewrite Hexp. }
      specialize (H (Z.of_nat n)). unfold at_index in H.
      destruct (Z.ltb_spec (Z.of_nat n) 0); [lia|].
      by rewrite Nat2Z.id in H.
  - done.
  - done.
  - done.
  - done.
  - cbn [triggers]. by rewrite at_index_alter_at_eq, Ht.
  - cbn [panels]. rewrite !alter_at_alter_at, at_index_alter_at_eq, Hp. done.
  - done.
  - done.
Qed.

Lemma expand_then_collapse_restores_witness :
  let s := new_Accordion three_panels (options_of true true) in
  panels (run_to_idle (togglePanel 1 (run_to_idle (togglePanel 1 s))))
  = panels s.
Proof.
  exact (proj1 (proj2 (expand_then_collapse_restores
                  (new_Accordion three_panels (options_of true true)) 1
                  (trigger_of false false) (panel_of 300)
                  eq_refl eq_refl eq_refl eq_refl eq_refl eq_refl eq_refl
                  eq_refl eq_refl eq_refl))).
Defined.

(** ** Always-open mode *)

(** The state after a swap has run to completion, whichever timer fired
    first. *)
Lemma swap_run_fields (s : State) (i j : Z) (tj ti : Trigger)
    (pj pi : Panel) :
  JS.truthy (allowToggle (config s)) = false →
  active s = Some j →
  i ≠ j →
  transitioning s = false →
  timers s = [] →
  frames s = [] →
  at_index (triggers s) j = Some tj →
  at_index (panels s) j = Some pj →
  at_index (triggers s) i = Some ti →
  at_index (panels s) i = Some pi →
  attr_is_true (aria_expanded ti) && attr_is_true (aria_disabled ti) = false →
  config (run_to_idle (togglePanel i s)) = config s
  ∧ active (run_to_idle (togglePanel i s)) = Some i
  ∧ isTransitioning (run_to_idle (togglePanel i s)) = Some false
  ∧ timers (run_to_idle (togglePanel i s)) = []
  ∧ frames (run_to_idle (togglePanel i s)) = []
  ∧ triggers (run_to_idle (togglePanel i s))
    = alter_at (set_aria_expanded "true") i
        (alter_at (set_aria_expanded "false") j (triggers s))
  ∧ length (panels (run_to_idle (togglePanel i s))) = length (panels s)
  ∧ ∀ k, at_index (panels (run_to_idle (togglePanel i s))) k
         = at_index
             (alter_at (λ q, set_height HUnset (set_class true q)) i
                (alter_at (λ q, set_height HUnset (set_class false q)) j
                   (panels s))) k.
Proof.
  intros Hcfg Hact Hne Hidle Htm Hfr Htj Hpj Hti Hpi Hlock.
  rewrite (togglePanel_swap s i j tj ti pj pi) by done.
  rewrite Htm, Hfr. cbn [app].
  destruct_state s. cbn [config triggers panels active isTransitioning trace
    timers frames next_promise clock] in *.
  unfold run_to_idle. cbn [timers length]. unfold Nat.iter. cbn [nat_rect].
  assert (∀ b x, earliest (timers x) = Some b → run_next x = fire_at b x)
    as Hnext by (intros b x E; unfold run_next; by rewrite E).
  destruct (clk + transition_ms pi <? clk + transition_ms pj)%nat eqn:Hcmp.
  - match goal with
    | |- context [run_next (run_next ?x)] =>
        rewrite (Hnext 1 x)
          by (cbn [timers earliest earliest_from due snd]; by rewrite Hcmp)
    end.
    fire. rewrite (Hnext 0) by reflexivity. fire.
    cbn [config triggers panels active isTransitioning timers frames].
    split_and!; [done|done|done|done|done|done
                |by rewrite !length_alter_at|].
    intros k. rewrite !at_index_alter_at.
    repeat case_bool_decide; subst; try done; by destruct (at_index ps k).
  - match goal with
    | |- context [run_next (run_next ?x)] =>
        rewrite (Hnext 0 x)
          by (cbn [timers earliest earliest_from due snd]; by rewrite Hcmp)
    end.
    fire. rewrite (Hnext 0) by reflexivity. fire.
    cbn [config triggers panels active isTransitioning timers frames].
    split_and!; [done|done|done|done|done|done
                |by rewrite !length_alter_at|].
    intros k. rewrite !at_index_alter_at.
    repeat case_bool_decide; subst; try done; by destruct (at_index ps k).
Qed.

Lemma run_to_idle_idle (s : State) : timers s = [] → run_to_idle s = s.
Proof. unfold run_to_idle. by intros ->. Qed.

Lemma one_open_step (j : Z) (s : State) (i : Z) :
  one_open j s →
  one_open (if bool_decide (0 ≤ i < Z.of_nat (length (panels s)) ∧ i ≠ j)%Z
            then i else j)
           (run_to_idle (togglePanel i s))
  ∧ length (panels (run_to_idle (togglePanel i s))) = length (panels s).
Proof.
  intros (Hcfg & Hidle & Htm & Hfr & Hlen & Hact & Hj & Hflags & Hclass).
  case_bool_decide as Hi.
  - destruct Hi as [Hi Hne].
    destruct (lookup_lt_is_Some_2 (triggers s) (Z.to_nat j)) as [tj Etj];
      [lia|].
    destruct (lookup_lt_is_Some_2 (panels s) (Z.to_nat j)) as [pj Epj];
      [lia|].
    destruct (lookup_lt_is_Some_2 (triggers s) (Z.to_nat i)) as [ti Eti];
      [lia|].
    destruct (lookup_lt_is_Some_2 (panels s) (Z.to_nat i)) as [pi Epi];
      [lia|].
    assert (∀ A (l : list A) k x, (0 ≤ k)%Z → l !! Z.to_nat k = Some x →
                                    at_index l k = Some x) as Hat.
    { intros A l k x Hk Hl. unfold at_index.
      by destruct (Z.ltb_spec k 0); [lia|]. }
    apply Hat in Etj, Epj, Eti, Epi; try lia.
    assert (attr_is_true (aria_expanded ti) = false) as Hti.
    { rewrite (Hflags i ti Eti). by apply bool_decide_eq_false_2. }
    destruct (swap_run_fields s i j tj ti pj pi)
      as (Ec & Ea & El & Et & Ef & Etr & Elen & Eps); try done.
    { by rewrite Hti. }
    split; [|done].
    unfold one_open. rewrite Ec, Et, Ef, Ea, Elen, Etr.
    rewrite !length_alter_at.
    split_and!; try done; try lia.
    + unfold transitioning. by rewrite El.
    + intros k t. rewrite !at_index_alter_at.
      repeat case_bool_decide; subst; try done.
      * rewrite Eti. by intros [= <-].
      * rewrite Etj. by intros [= <-].
      * intros Hk. rewrite (Hflags k t Hk). by apply bool_decide_eq_false_2.
    + intros k p. rewrite Eps, !at_index_alter_at.
      repeat case_bool_decide; subst; try done.
      * rewrite Epi. by intros [= <-].
      * rewrite Epj. by intros [= <-].
      * intros Hk. rewrite (Hclass k p Hk). by apply bool_decide_eq_false_2.
  - assert (togglePanel i s = s) as ->.
    { apply togglePanel_rejected. unfold accepts, active_is.
      rewrite Hcfg, Hact. cbn [negb andb].
      destruct (Z.ltb_spec i 0); [done|].
      destruct (Z.leb_spec (Z.of_nat (length (panels s))) i); [done|].
      destruct (Z.eqb_spec j i); [by rewrite andb_false_r|].
      exfalso. apply Hi. split; [lia|congruence]. }
    rewrite run_to_idle_idle by done. done.
Qed.

(** X19. In always-open mode exactly one panel stays open through any
    sequence of completed requests: if panel [j] is the active one and the
    only one open (by its trigger's flag and by its class), then after the
    requests, each run to completion, the panel open and active is the last
    requested index that was in range and different from the one open at
    that moment, and it is again the only one. *)
Theorem always_open_keeps_one_open (j : Z) (s : State) (reqs : list Z) :
  one_open j s →
  one_open
    (foldl (λ a i,
              if bool_decide
                   (0 ≤ i < Z.of_nat (length (panels s)) ∧ i ≠ a)%Z
              then i else a) j reqs)
    (foldl (λ s i, run_to_idle (togglePanel i s)) s reqs).
Proof.
  remember (length (panels s)) as n eqn:Hn.
  revert j s Hn. induction reqs as [|i reqs IH]; intros j s Hn Hs; [done|].
  cbn [foldl]. destruct (one_open_step j s i Hs) as [Hstep Hlen].
  rewrite <- Hn in Hstep. apply IH; [by rewrite Hlen|done].
Qed.

Lemma always_open_keeps_one_open_witness :
  one_open 1
    (foldl (λ s i, run_to_idle (togglePanel i s))
       (new_Accordion three_panels (options_of false false)) [2; 7; 2; 1]%Z).
Proof.
  apply (always_open_keeps_one_open 0
           (new_Accordion three_panels (options_of false false))
           [2; 7; 2; 1]%Z).
  unfold one_open.
  split_and!; try reflexivity; try (vm_compute; discriminate).
  - intros k t Hk. assert (k = 0 ∨ k = 1 ∨ k = 2)%Z as [-> | [-> | ->]].
    { apply at_index_Some in Hk as [? Hk]. apply lookup_lt_Some in Hk.
      change (Z.to_nat k < 3) in Hk. lia. }
    all: vm_compute in Hk; injection Hk as <-; reflexivity.
  - intros k p Hk. assert (k = 0 ∨ k = 1 ∨ k = 2)%Z as [-> | [-> | ->]].
    { apply at_index_Some in Hk as [? Hk]. apply lookup_lt_Some in Hk.
      change (Z.to_nat k < 3) in Hk. lia. }
    all: vm_compute in Hk; injection Hk as <-; reflexivity.
Defined.

Lemma unflagged_pairs (cs : list Child) :
  existsb flagged_expanded cs = false →
  Forall (λ tp : Trigger * Panel, attr_is_true (aria_expanded tp.1) = false)
    (omap pair_of cs).
Proof.
  induction cs as [|c cs IH]; intros Hex; [by constructor|].
  cbn in Hex. apply orb_false_iff in Hex as [Hc Hex].
  cbn [omap list_omap]. unfold flagged_expanded in Hc.
  destruct (pair_of c) as [[t p]|]; [|by apply IH].
  constructor; [done|by apply IH].
Qed.

Lemma all_pairs_length (cs : list Child) :
  Forall (λ c, is_Some (pair_of c)) cs → length (omap pair_of cs) = length cs.
Proof.
  induction 1 as [|c cs [tp Hc] Hcs IH]; [done|].
  cbn. rewrite Hc. cbn. by rewrite IH.
Qed.

(** A state at rest in always-open mode whose triggers and panels are laid
    out around one open pair. *)
Lemma one_open_layout (s : State) (T1 T2 : list Trigger) (P1 P2 : list Panel)
    (t : Trigger) (p : Panel) :
  JS.truthy (allowToggle (config s)) = false →
  transitioning s = false →
  timers s = [] →
  frames s = [] →
  triggers s = T1 ++ t :: T2 →
  panels s = P1 ++ p :: P2 →
  length T1 = length P1 →
  length T2 = length P2 →
  active s = Some (Z.of_nat (length T1)) →
  attr_is_true (aria_expanded t) = true →
  expanded_class p = true →
  Forall (λ t, attr_is_true (aria_expanded t) = false) (T1 ++ T2) →
  Forall (λ p, expanded_class p = false) (P1 ++ P2) →
  one_open (Z.of_nat (length T1)) s.
Proof.
  intros Hcfg Hidle Htm Hfr Ht Hp Hl1 Hl2 Hact Hat Hcl HT HP.
  apply Forall_app in HT as [HT1 HT2]. apply Forall_app in HP as [HP1 HP2].
  rewrite Forall_lookup in HT1. rewrite Forall_lookup in HT2.
  rewrite Forall_lookup in HP1. rewrite Forall_lookup in HP2.
  unfold one_open. rewrite Ht, Hp, !length_app. cbn [length].
  split_and!; try done; try lia.
  - intros k t' Hk. apply at_index_Some in Hk as [Hk0 Hk].
    apply lookup_app_Some in Hk as [Hk|[Hge Hk]].
    + rewrite (HT1 _ _ Hk). symmetry. apply bool_decide_eq_false_2.
      apply lookup_lt_Some in Hk. lia.
    + destruct (Z.to_nat k - length T1) as [|m] eqn:Em; cbn in Hk.
      * injection Hk as <-. rewrite Hat. symmetry.
        apply bool_decide_eq_true_2. lia.
      * rewrite (HT2 _ _ Hk). symmetry. apply bool_decide_eq_false_2. lia.
  - intros k p' Hk. apply at_index_Some in Hk as [Hk0 Hk].
    apply lookup_app_Some in Hk as [Hk|[Hge Hk]].
    + rewrite (HP1 _ _ Hk). symmetry. apply bool_decide_eq_false_2.
      apply lookup_lt_Some in Hk. lia.
    + destruct (Z.to_nat k - length P1) as [|m] eqn:Em; cbn in Hk.
      * injection Hk as <-. rewrite Hcl. symmetry.
        apply bool_decide_eq_true_2. lia.
      * rewrite (HP2 _ _ Hk). symmetry. apply bool_decide_eq_false_2. lia.
Qed.

(** X20. In always-open mode well-formed markup starts with exactly one
    panel open: if at most one pair is flagged expanded and no child before
    it is skipped (or no pair is flagged and the first child is a pair),
    then after construction that pair is the active one and the only one
    whose trigger reads expanded and whose panel carries the class. *)
Theorem constructor_one_open (root : Root) (options : Options)
    (pre post : list Child) (c : Child) :
  JS.truthy (allowToggle (getConfig options (dataset root))) = false →
  children root = pre ++ c :: post →
  Forall (λ c, is_Some (pair_of c)) pre →
  is_Some (pair_of c) →
  existsb flagged_expanded pre = false →
  existsb flagged_expanded post = false →
  flagged_expanded c = true ∨ pre = [] →
  one_open (Z.of_nat (length pre)) (new_Accordion root options).
Proof.
  intros Htg Hch Hpre [[t p] Hc] Hupre Hupost Hor.
  assert (JS.truthy (allowMultiple (getConfig options (dataset root)))
          = false) as Hm.
  { destruct (JS.truthy (allowMultiple _)) eqn:E; [|done].
    apply config_multiple_needs_toggle in E. congruence. }
  destruct (new_Accordion_idle root options)
    as (Htm & Hfr & _ & Hidle & Hcfg).
  pose proof (unflagged_pairs _ Hupre) as Fpre.
  pose proof (unflagged_pairs _ Hupost) as Fpost.
  rewrite <- (all_pairs_length pre Hpre).
  rewrite <- (length_fmap fst (omap pair_of pre)).
  assert (∃ t' p',
            triggers (new_Accordion root options)
            = (omap pair_of pre).*1 ++ t' :: (omap pair_of post).*1
            ∧ panels (new_Accordion root options)
              = (mirrored <$> omap pair_of pre)
                ++ p' :: (mirrored <$> omap pair_of post)
            ∧ active (new_Accordion root options)
              = Some (Z.of_nat (length (omap pair_of pre).*1))
            ∧ attr_is_true (aria_expanded t') = true
            ∧ expanded_class p' = true) as (t' & p' & Et & Ep & Ea & Ht' & Hp').
  { unfold new_Accordion. rewrite Hch, scan_app, Hm.
    rewrite scan_mirrors by (by right). cbn [app scan].
    rewrite (scan_child_pair _ _ _ _ _ _ t p Hc), Hm. cbn [negb andb].
    rewrite bool_decide_eq_true_2 by done. cbn [negb].
    unfold flagged_expanded in Hor. rewrite Hc in Hor.
    destruct (attr_is_true (aria_expanded t)) eqn:Hflag.
    - rewrite scan_mirrors by (by right). rewrite Htg. cbn [negb andb].
      rewrite bool_decide_eq_false_2 by (intros [= ?]; lia).
      destruct (length _ =? 0)%nat eqn:El.
      { apply Nat.eqb_eq in El. rewrite !length_app in El. cbn in El. lia. }
      exists t, (set_class true p). cbn [triggers panels active].
      rewrite <- !app_assoc. cbn [app].
      rewrite length_fmap, (all_pairs_length pre Hpre).
      split_and!; try done; f_equal; lia.
    - destruct Hor as [?| ->]; [done|].
      rewrite scan_mirrors by (by right). rewrite Htg. cbn [negb andb].
      rewrite bool_decide_eq_true_2 by done.
      exists (set_aria_expanded "true" t), (set_class true p).
      by cbn. }
  eapply one_open_layout; try done.
  - by rewrite Hcfg.
  - by rewrite !length_fmap.
  - by rewrite !length_fmap.
  - rewrite <- fmap_app. apply Forall_fmap.
    rewrite Forall_app. split; by eapply Forall_impl.
  - rewrite <- fmap_app. apply Forall_fmap.
    rewrite Forall_app. split; eapply Forall_impl; try done;
      by intros [? ?] ?.
Qed.

Lemma constructor_one_open_witness :
  one_open 1
    (new_Accordion
       {| dataset := no_data;
          children := [group_of false false 300; group_of true false 300;
                       group_of false false 300] |}
       (options_of false false)).
Proof.
  apply (constructor_one_open
           {| dataset := no_data;
              children := [group_of false false 300; group_of true false 300;
                           group_of false false 300] |}
           (options_of false false)
           [group_of false false 300] [group_of false false 300]
           (group_of true false 300)); try reflexivity.
  - repeat constructor. by eexists.
  - by eexists.
  - by left.
Defined.

(** X21. With [allowMultiple] off, [_active] after construction is the
    position among the root's children of the first pair flagged expanded,
    not its position among the pairs: the two differ as soon as a child
    before it is skipped. *)
Theorem constructor_stores_child_position (root : Root) (options : Options)
    (pre post : list Child) (c : Child) :
  JS.truthy (allowMultiple (getConfig options (dataset root))) = false →
  children root = pre ++ c :: post →
  existsb flagged_expanded pre = false →
  flagged_expanded c = true →
  active (new_Accordion root options) = Some (Z.of_nat (length pre))
  ∧ length (omap pair_of pre) ≤ length pre
  ∧ (length (omap pair_of pre) = length pre
     ↔ Forall (λ c, is_Some (pair_of c)) pre).
Proof.
  intros Hm Hch Hpre Hc. split; [by eapply new_Accordion_active|].
  clear. induction pre as [|c pre [IH1 IH2]]; [by split|].
  cbn [omap list_omap length]. destruct (pair_of c) as [tp|] eqn:E; cbn.
  - split; [lia|]. rewrite Forall_cons, <- IH2. rewrite E.
    split; [intros [= ?]; by split|]. intros [_ ?]. by f_equal.
  - split; [lia|]. split; [lia|]. rewrite Forall_cons, E.
    intros [[? [=]] _].
Qed.

Lemma constructor_stores_child_position_witness :
  active (new_Accordion skipped_first (options_of true false)) = Some 1%Z.
Proof.
  exact (proj1 (constructor_stores_child_position skipped_first
                  (options_of true false) [not_a_group] []
                  (group_of true false 300) eq_refl eq_refl eq_refl
                  eq_refl)).
Defined.
